(** * Arbitrage bot server: a shallow embedding of [server.js]

    The price aggregator ([fetchPrice], [scanPair]), the opportunity detector
    (one iteration of [mainLoop]) and the execution orchestrator
    ([executeArbitrage]) are translated function by function.

    - JavaScript numbers are IEEE-754 binary64 values: they are modelled by
      Rocq's primitive [float], whose operations are the same binary64
      operations with round-to-nearest-even.
    - An exception (a throw, or a rejected promise under [await]) is a
      [Throw] in the result type [Completion]; [try]/[catch] is [try_catch].
    - Calls on exchange adapters that have an effect, [io.emit] and
      [console.error] are recorded, in program order, in an effect trace.
    - An object used as a map is the list of its own properties.  The
      address lookup of [executeArbitrage] reads it with keys taken from
      the request, so there the read goes on to [Object.prototype], as
      [o[k]] does. *)

From Stdlib Require Import ZArith Floats List Ascii String Bool Lia.
From Stdlib Require Import Permutation Sorted.
Import ListNotations.

#[local] Set Warnings "-inexact-float".
#[local] Open Scope string_scope.
#[local] Open Scope list_scope.
#[local] Open Scope Z_scope.

(* ================================================================= *)
(** ** JavaScript numbers *)

Module JSNumber.

(** [ToBoolean] on a Number: [+0], [-0] and [NaN] are falsy. *)
Definition ToBoolean (x : float) : bool :=
  negb (x =? 0)%float && negb (PrimFloat.is_nan x).

(** An order embedding of the non-NaN binary64 values into [Z]: a finite
    value [m * 2^e] is scaled by [2^1074] (so that subnormals are
    integers) and the infinities sit beyond every finite value. *)
Definition sval (x : spec_float) : Z :=
  match x with
  | S754_zero _ => 0
  | S754_nan => 0
  | S754_infinity s => cond_Zopp s (2 ^ 2200)
  | S754_finite s m e => cond_Zopp s (Zpos m * 2 ^ (e + 1074))
  end.

Definition key (x : float) : Z := sval (Prim2SF x).

Definition sf_is_nan (x : spec_float) : bool :=
  match x with S754_nan => true | _ => false end.

(** The outcome of rounding a non-zero magnitude keeps the sign: it is a
    finite non-zero value or an infinity, never a zero. *)
Definition signed_nonzero (s : bool) (x : spec_float) : Prop :=
  match x with
  | S754_finite s' _ _ => s' = s
  | S754_infinity s' => s' = s
  | _ => False
  end.

Definition zero_or_nan (x : spec_float) : Prop :=
  match x with S754_zero _ | S754_nan => True | _ => False end.

End JSNumber.

(* ================================================================= *)
(** ** [Array.prototype.sort] with a comparator *)

Module JSArray.
Section Sort.
Context {A : Type}.
Variable comparefn : A -> A -> float.

(** ECMAScript [SortCompare]: a [NaN] from the comparator counts as
    [+0]. *)
Definition SortCompare (x y : A) : float :=
  let v := comparefn x y in
  if PrimFloat.is_nan v then 0%float else v.

(** The specification requires a stable sort.  Insertion from the
    right is one: an element moves behind exactly the elements the
    comparator puts strictly before it. *)
Fixpoint insert (x : A) (l : list A) : list A :=
  match l with
  | [] => [x]
  | y :: l' =>
      if (0 <? SortCompare x y)%float then y :: insert x l'
      else x :: y :: l'
  end.

Fixpoint sort (l : list A) : list A :=
  match l with
  | [] => []
  | x :: l' => insert x (sort l')
  end.
End Sort.

(** Order and equality of elements by an integer key. *)
Definition le_key {A : Type} (k : A -> Z) (x y : A) : Prop := k x <= k y.
Definition has_key {A : Type} (k : A -> Z) (z : Z) (x : A) : bool := k x =? z.
End JSArray.

(* ================================================================= *)
(** ** Completions, effects and the data of the server *)

Inductive Completion (A : Type) : Type :=
| Return (a : A)
| Throw (err : string).
Arguments Return {A} a.
Arguments Throw {A} err.

Module Completion.
Definition bind {A B} (c : Completion A) (f : A -> Completion B) : Completion B :=
  match c with
  | Return a => f a
  | Throw e => Throw e
  end.

Definition try_catch {A} (body : Completion A) (handler : string -> Completion A)
  : Completion A :=
  match body with
  | Return a => Return a
  | Throw e => handler e
  end.
End Completion.

(** A quote pushed by [scanPair]: [{ exchange, bid, ask }]. *)
Record Quote := { exchange : string; bid : float; ask : float }.

(** A ccxt ticker, as far as [fetchPrice] reads it: each field is a number
    or [undefined]. *)
Record Ticker := {
  ticker_bid : option float;
  ticker_ask : option float;
  ticker_last : option float
}.

(** The object [fetchPrice] returns: [{ bid, ask, last }]. *)
Record Price := {
  price_bid : option float;
  price_ask : option float;
  price_last : option float
}.

Record Tx := { tx_id : option string }.
Record Order := { order_id : option string }.

(** What a property read on the address book can give.  Besides the
    configured strings, an object literal inherits the members of
    [Object.prototype]: [Builtin path] is the built-in object (a function
    or a prototype object) reached from [Object.prototype] through the
    properties of [path] in turn, so [Builtin ["constructor"]] is the
    function [Object].  A string is used as a value through [Text]. *)
Inductive Value :=
| Undefined
| Null
| Text (s : string)
| Number (x : float)
| Boolean (b : bool)
| Builtin (path : list string).

Coercion Text : string >-> Value.

(** [ToBoolean] of a value: [undefined], [null], the empty string, zero
    and [NaN] are falsy; every object is truthy. *)
Definition truthy (v : Value) : bool :=
  match v with
  | Undefined | Null => false
  | Text EmptyString => false
  | Text (String _ _) => true
  | Number x => JSNumber.ToBoolean x
  | Boolean b => b
  | Builtin _ => true
  end.

(** An exchange adapter (a ccxt instance).  [has] is the capability table,
    read by truthiness; it may be missing.  A method either returns or
    throws.  [withdraw] is handed whatever value the address lookup of
    [executeArbitrage] gave. *)
Record Exchange := {
  has : option (string -> bool);
  fetchTicker : string -> Completion Ticker;
  createMarketOrder : string -> string -> float -> Completion Order;
  withdraw : string -> float -> Value -> Completion Tx
}.

Module Snapshot.
(** The object [scanPair] returns; [results[0]] is [undefined] on an
    empty array, hence the options. *)
Record t := {
  pair : string;
  bestBuy : option Quote;
  bestSell : option Quote;
  all : list Quote
}.
End Snapshot.

Module Opportunity.
Record t := {
  timestamp : Z;
  pair : string;
  bestBuy : Quote;
  bestSell : Quote;
  spread : float
}.
End Opportunity.

(** What [executeArbitrage] returns: [{ ok, reason?, err?, note? }]. *)
Record ExecutionResult := {
  ok : bool;
  reason : option string;
  err : option string;
  note : option string
}.

(** The [log] lines of [executeArbitrage], with the interpolated values in
    place of the rendered text. *)
Inductive LogLine :=
| LogBought (baseAmount : float) (asset exchange : string) (buyPrice : float)
| LogNoDestination (asset exchange : string)
| LogWithdrawRequested (exchange : string) (tx : Tx)
| LogWithdrawFailed (err : string)
| LogWithdrawUnsupported (exchange : string)
| LogWaitingDeposit (exchange : string).

(** One observable action of the server. *)
Inductive Effect :=
| CallCreateMarketOrder (exchange symbol side : string) (amount : float)
| CallWithdraw (exchange asset : string) (amount : float) (address : Value)
| EmitLog (line : LogLine)
| EmitTicker (pair : string) (buy sell : Quote) (spread : float)
| EmitOpportunity (opportunity : Opportunity.t)
| ConsoleError (err : string).

(** Computations with an effect trace that may throw. *)
Definition M (A : Type) : Type := (list Effect * Completion A)%type.

Module M.
Definition ret {A} (a : A) : M A := ([], Return a).

Definition bind {A B} (m : M A) (f : A -> M B) : M B :=
  match m with
  | (t, Return a) => let (t', c) := f a in (t ++ t', c)
  | (t, Throw e) => (t, Throw e)
  end.

Definition try_catch {A} (body : M A) (handler : string -> M A) : M A :=
  match body with
  | (t, Return a) => (t, Return a)
  | (t, Throw e) => let (t', c) := handler e in (t ++ t', c)
  end.

Definition perform (e : Effect) : M unit := ([e], Return tt).

Definition lift {A} (c : Completion A) : M A := ([], c).

Definition trace {A} (m : M A) : list Effect := fst m.
Definition outcome {A} (m : M A) : Completion A := snd m.
End M.

Declare Scope completion_scope.
Delimit Scope completion_scope with completion.
Notation "x <- c ;; k" := (Completion.bind c (fun x => k))
  (at level 61, c at next level, right associativity) : completion_scope.

Declare Scope effect_scope.
Delimit Scope effect_scope with effect.
Notation "x <- c ;; k" := (M.bind c (fun x => k))
  (at level 61, c at next level, right associativity) : effect_scope.
Notation "c ;; k" := (M.bind c (fun _ => k))
  (at level 61, right associativity) : effect_scope.

(** Lookup of an own property on an object used as a map; [Object.keys]
    lists the keys in insertion order. *)
Fixpoint get {A : Type} (o : list (string * A)) (k : string) : option A :=
  match o with
  | [] => None
  | (k', v) :: o' => if String.eqb k' k then Some v else get o' k
  end.

Definition keys {A : Type} (o : list (string * A)) : list string := map fst o.

(** [s.split('/')[0]] *)
Fixpoint split_slash_0 (s : string) : string :=
  match s with
  | EmptyString => EmptyString
  | String c r =>
      if Ascii.eqb c "/"%char then EmptyString else String c (split_slash_0 r)
  end.

(** The own property names of [Object.prototype]: every object literal,
    such as [withdrawAddresses = {}] and the objects nested in it,
    inherits them. *)
Definition objectPrototypeNames : list string :=
  ["constructor"; "__defineGetter__"; "__defineSetter__"; "hasOwnProperty";
   "__lookupGetter__"; "__lookupSetter__"; "isPrototypeOf";
   "propertyIsEnumerable"; "toString"; "valueOf"; "__proto__";
   "toLocaleString"].

Definition inheritedName (k : string) : bool :=
  existsb (String.eqb k) objectPrototypeNames.

(** [o[k]] on an object literal [o] of which [k] is not an own property:
    the member of [Object.prototype] of that name, [undefined] when there
    is none. *)
Definition inheritedProperty (k : string) : Value :=
  if inheritedName k then Builtin [k] else Undefined.

(** The properties of the built-in objects, which the runtime fixes:
    [builtins member k] is the outcome of reading
    [Object.prototype[member][k]].  For instance
    [Object.prototype.constructor.name] is the string ["Object"].  A
    read may throw, as an accessor property can. *)
Definition Builtins : Type := string -> string -> Completion Value.

(** [withdrawAddresses && withdrawAddresses[exchange] &&
    withdrawAddresses[exchange][asset]].  [withdrawAddresses] lists the
    own properties of the address book; both property reads go on to
    [Object.prototype] when the key is not an own property.  A missing
    first level stops the [&&] chain with [undefined]. *)
Definition addressEntry (builtins : Builtins)
           (withdrawAddresses : list (string * list (string * string)))
           (exchange asset : string) : Completion Value :=
  match get withdrawAddresses exchange with
  | Some byAsset =>
      match get byAsset asset with
      | Some address => Return (Text address)
      | None => Return (inheritedProperty asset)
      end
  | None =>
      if inheritedName exchange then builtins exchange asset
      else Return Undefined
  end.

Definition PAIRS : list string :=
  ["BTC/USDT"; "ETH/USDT"; "XRP/USDT"; "BCH/USDT"; "LTC/USDT"]%string.

Definition MIN_ARBITRAGE_SPREAD : float := 0.002%float.
Definition TRADE_AMOUNT_USDT : float := 10%float.

(* ================================================================= *)
(** ** The server *)

(** [fetchPrice(exchange, pair)]; [None] is [null]. *)
Definition fetchPrice (exchange : option Exchange) (pair : string)
  : Completion (option Price) :=
  Completion.try_catch
    (match exchange with
     | None => Return None
     | Some ex =>
         match has ex with
         | None => Return None
         | Some caps =>
             if negb (caps "fetchTicker") then Return None
             else
               (ticker <- fetchTicker ex pair ;;
                Return (Some {| price_bid := ticker_bid ticker;
                                price_ask := ticker_ask ticker;
                                price_last := ticker_last ticker |}))%completion
         end
     end)
    (fun _ => Return None).

(** [(sell.bid - buy.ask) / buy.ask], as [mainLoop] and
    [executeArbitrage] both compute it. *)
Definition spreadOf (buy sell : Quote) : float :=
  ((bid sell - ask buy) / ask buy)%float.

Definition failure (why : string) : ExecutionResult :=
  {| ok := false; reason := Some why; err := None; note := None |}.

Definition call {A : Type} (e : Effect) (result : Completion A) : M A :=
  ([e], result).

Section Server.
(** The built-in objects of the runtime. *)
Variable builtins : Builtins.
(** The module-level [exchanges] object and [withdrawAddresses] map. *)
Variable exchanges : list (string * Exchange).
Variable withdrawAddresses : list (string * list (string * string)).
(** What [Date.now()] returns while the given pair is processed. *)
Variable Date_now : string -> Z.

(** The [for (const id of Object.keys(exchanges))] loop of [scanPair],
    [results] being the array built so far. *)
Fixpoint scanLoop (pair : string) (ids : list string) (results : list Quote)
  : Completion (list Quote) :=
  match ids with
  | [] => Return results
  | id :: ids' =>
      let ex := get exchanges id in
      (results' <-
         Completion.try_catch
           (price <- fetchPrice ex pair ;;
            match price with
            | Some {| price_bid := Some b; price_ask := Some a |} =>
                if JSNumber.ToBoolean b && JSNumber.ToBoolean a
                then Return (results ++ [{| exchange := id; bid := b; ask := a |}])
                else Return results
            | _ => Return results
            end)
           (fun _ => Return results) ;;
       scanLoop pair ids' results')%completion
  end.

Definition scanPair (pair : string) : Completion (option Snapshot.t) :=
  (results <- scanLoop pair (keys exchanges) [] ;;
   if (List.length results <? 2)%nat then Return None
   else
     let results := JSArray.sort (fun a b => ask a - ask b)%float results in
     let bestBuy := hd_error results in
     let results := JSArray.sort (fun a b => bid b - bid a)%float results in
     let bestSell := hd_error results in
     Return (Some {| Snapshot.pair := pair;
                     Snapshot.bestBuy := bestBuy;
                     Snapshot.bestSell := bestSell;
                     Snapshot.all := results |}))%completion.

(** [executeArbitrage(opportunity)].  [exchanges[bestBuy.exchange]] is
    read as an own property: what the object inherits under a name such
    as "constructor" has no [has] table and fails the capability test as
    a missing adapter does.  The destination address is read by
    [addressEntry], own or inherited. *)
Definition executeArbitrage (opportunity : Opportunity.t) : M ExecutionResult :=
  let pair := Opportunity.pair opportunity in
  let bestBuy := Opportunity.bestBuy opportunity in
  let bestSell := Opportunity.bestSell opportunity in
  let buyPrice := ask bestBuy in
  let sellPrice := bid bestSell in
  let spread := ((sellPrice - buyPrice) / buyPrice)%float in
  if (spread <? MIN_ARBITRAGE_SPREAD)%float then M.ret (failure "spread too low")
  else
    let baseAmount := (TRADE_AMOUNT_USDT / buyPrice)%float in
    M.try_catch
      (match get exchanges (exchange bestBuy) with
       | None => M.ret (failure "buy exchange cannot create orders via API")
       | Some buyEx =>
       match has buyEx with
       | None => M.ret (failure "buy exchange cannot create orders via API")
       | Some caps =>
       if negb (caps "createMarketOrder")
       then M.ret (failure "buy exchange cannot create orders via API")
       else
         let symbol := pair in
         (buyOrder <- call (CallCreateMarketOrder (exchange bestBuy) symbol "buy" baseAmount)
                           (createMarketOrder buyEx symbol "buy" baseAmount) ;;
          M.perform (EmitLog (LogBought baseAmount (split_slash_0 pair)
                                        (exchange bestBuy) buyPrice)) ;;
          let asset := split_slash_0 pair in
          destinationAddress <-
            M.lift (addressEntry builtins withdrawAddresses (exchange bestSell) asset) ;;
          if negb (truthy destinationAddress) then
              M.perform (EmitLog (LogNoDestination asset (exchange bestSell))) ;;
              M.ret (failure "no destination address")
          else
              if caps "withdraw" then
                returned <-
                  M.try_catch
                    (tx <- call (CallWithdraw (exchange bestBuy) asset baseAmount
                                              destinationAddress)
                                (withdraw buyEx asset baseAmount destinationAddress) ;;
                     M.perform (EmitLog (LogWithdrawRequested (exchange bestBuy) tx)) ;;
                     M.ret None)
                    (fun e =>
                       M.perform (EmitLog (LogWithdrawFailed e)) ;;
                       M.ret (Some {| ok := false; reason := Some "withdraw failed";
                                      err := Some e; note := None |})) ;;
                match returned with
                | Some result => M.ret result
                | None =>
                    M.perform (EmitLog (LogWaitingDeposit (exchange bestSell))) ;;
                    M.ret {| ok := true; reason := None; err := None;
                             note := Some "buy placed and withdraw requested â€” you must confirm deposit and then sell." |}
                end
              else
                M.perform (EmitLog (LogWithdrawUnsupported (exchange bestBuy))) ;;
                M.ret (failure "withdraw not supported"))%effect
       end
       end)
      (fun e => M.ret {| ok := false; reason := Some "order failed";
                         err := Some e; note := None |}).

(** The body of the [for (const pair of PAIRS)] loop of [mainLoop]. *)
Definition processPair (pair : string) : M unit :=
  (opp <- M.lift (scanPair pair) ;;
   match opp with
   | None => M.ret tt
   | Some opp =>
       match Snapshot.bestBuy opp, Snapshot.bestSell opp with
       | Some buy, Some sell =>
           let spread := ((bid sell - ask buy) / ask buy)%float in
           M.perform (EmitTicker pair buy sell spread) ;;
           if (MIN_ARBITRAGE_SPREAD <=? spread)%float
              && negb (String.eqb (exchange buy) (exchange sell))
           then
             M.perform (EmitOpportunity
                          {| Opportunity.timestamp := Date_now pair;
                             Opportunity.pair := pair;
                             Opportunity.bestBuy := buy;
                             Opportunity.bestSell := sell;
                             Opportunity.spread := spread |})
           else M.ret tt
       | _, _ => M.ret tt
       end
   end)%effect.

Fixpoint forPairs (pairs : list string) : M unit :=
  match pairs with
  | [] => M.ret tt
  | p :: rest => (processPair p ;; forPairs rest)%effect
  end.

(** One iteration of the [while (running)] loop of [mainLoop], up to the
    sleep: the [try] around the whole [for] loop and its [catch]. *)
Definition mainLoop_cycle : M unit :=
  M.try_catch (forPairs PAIRS) (fun e => M.perform (ConsoleError e)).

End Server.

(** [mainLoop]: [running] is never cleared, so the loop does not end; its
    first iterations are run here, one state of the adapters and of the
    clock per iteration. *)
Fixpoint mainLoop (worlds : list (list (string * Exchange) * (string -> Z)))
  : list Effect :=
  match worlds with
  | [] => []
  | (exchanges, Date_now) :: later =>
      M.trace (mainLoop_cycle exchanges Date_now) ++ mainLoop later
  end.

(* ================================================================= *)
(** ** The price aggregator *)

(** The entry an adapter contributes to [results]: a quote when
    [fetchPrice] gives a price whose bid and ask are both truthy, nothing
    otherwise. *)
Definition quoteOf (exchanges : list (string * Exchange)) (pair id : string)
  : list Quote :=
  match fetchPrice (get exchanges id) pair with
  | Return (Some {| price_bid := Some b; price_ask := Some a |}) =>
      if JSNumber.ToBoolean b && JSNumber.ToBoolean a
      then [{| exchange := id; bid := b; ask := a |}]
      else []
  | _ => []
  end.

(** The valid quotes of a pair, in adapter iteration order. *)
Definition validQuotes (exchanges : list (string * Exchange)) (pair : string)
  : list Quote :=
  flat_map (quoteOf exchanges pair) (keys exchanges).

Definition byAsk (a b : Quote) : float := (ask a - ask b)%float.
Definition byBidDesc (a b : Quote) : float := (bid b - bid a)%float.

Definition validQuote (q : Quote) : Prop :=
  JSNumber.ToBoolean (bid q) = true /\ JSNumber.ToBoolean (ask q) = true.

(** The integer keys the two comparators of [scanPair] sort by. *)
Definition askKey (q : Quote) : Z := JSNumber.key (ask q).
Definition bidKeyDesc (q : Quote) : Z := - JSNumber.key (bid q).

(* ================================================================= *)
(** ** Vocabulary of the claims on the execution orchestrator *)

(** The calls of a trace that place an order or request a withdrawal. *)
Definition adapterCalls (trace : list Effect) : list Effect :=
  filter (fun e => match e with
                   | CallCreateMarketOrder _ _ _ _ | CallWithdraw _ _ _ _ => true
                   | _ => false
                   end) trace.

(** The amount [executeArbitrage] buys. *)
Definition baseAmountOf (opportunity : Opportunity.t) : float :=
  (TRADE_AMOUNT_USDT / ask (Opportunity.bestBuy opportunity))%float.

Definition awaitingDeposit : ExecutionResult :=
  {| ok := true; reason := None; err := None;
     note := Some "buy placed and withdraw requested â€” you must confirm deposit and then sell." |}.

(** An adapter that only serves tickers. *)
Definition readOnly (b a : float) : Exchange :=
  {| has := Some (fun c => String.eqb c "fetchTicker");
     fetchTicker := fun _ =>
       Return {| ticker_bid := Some b; ticker_ask := Some a; ticker_last := None |};
     createMarketOrder := fun _ _ _ => Throw "not supported";
     withdraw := fun _ _ _ => Throw "not supported" |}.

(** An adapter that trades but cannot, or fails to, withdraw. *)
Definition tradingOnly (canWithdraw : bool) : Exchange :=
  {| has := Some (fun c => if String.eqb c "withdraw" then canWithdraw else true);
     fetchTicker := fun _ =>
       Return {| ticker_bid := Some 100; ticker_ask := Some 100.1;
                 ticker_last := None |}%float;
     createMarketOrder := fun _ _ _ => Return {| order_id := Some "o-1" |};
     withdraw := fun _ _ _ => Throw "address not whitelisted" |}.

Definition opportunityOf (pair : string) (buy sell : Quote) : Opportunity.t :=
  {| Opportunity.timestamp := 0;
     Opportunity.pair := pair;
     Opportunity.bestBuy := buy;
     Opportunity.bestSell := sell;
     Opportunity.spread := spreadOf buy sell |}.

Definition quoteA : Quote := {| exchange := "A"; bid := 100; ask := 100.1 |}.
Definition quoteB : Quote := {| exchange := "B"; bid := 100.5; ask := 100.6 |}.

(* ================================================================= *)
(** ** Fixtures *)

(** An adapter with every capability that always quotes the given bid and
    ask and accepts every order and withdrawal, and an adapter whose every
    call throws. *)
Definition quoting (b a : float) : Exchange :=
  {| has := Some (fun _ => true);
     fetchTicker := fun _ =>
       Return {| ticker_bid := Some b; ticker_ask := Some a; ticker_last := None |};
     createMarketOrder := fun _ _ _ => Return {| order_id := None |};
     withdraw := fun _ _ _ => Return {| tx_id := None |} |}.

Definition failing : Exchange :=
  {| has := Some (fun _ => true);
     fetchTicker := fun _ => Throw "ticker unavailable";
     createMarketOrder := fun _ _ _ => Throw "order rejected";
     withdraw := fun _ _ _ => Throw "withdrawal rejected" |}.

(** The scenario of the specification: A quotes 100 / 100.1, B quotes
    100.5 / 100.6; a third adapter fails. *)
Definition scenarioExchanges : list (string * Exchange) :=
  [("A", quoting 100 100.1); ("C", failing); ("B", quoting 100.5 100.6)].

(** Two adapters tied on the bid. *)
Definition tiedExchanges : list (string * Exchange) :=
  [("A", quoting 10 12); ("B", quoting 10 11)].

(** The first quote, in list order, whose bid no other quote exceeds. *)
Definition firstMaxBid (l : list Quote) : option Quote :=
  find (fun q => forallb (fun q' => (bid q' <=? bid q)%float) l) l.

(** An adapter that throws on one pair and quotes the others. *)
Definition quotingExcept (bad : string) (b a : float) : Exchange :=
  {| has := Some (fun _ => true);
     fetchTicker := fun pair =>
       if String.eqb pair bad then Throw "symbol not listed"
       else Return {| ticker_bid := Some b; ticker_ask := Some a;
                      ticker_last := None |};
     createMarketOrder := fun _ _ _ => Return {| order_id := None |};
     withdraw := fun _ _ _ => Return {| tx_id := None |} |}.

Definition partlyFailingExchanges : list (string * Exchange) :=
  [("A", quotingExcept "BTC/USDT" 100 100.1); ("C", failing);
   ("B", quoting 100.5 100.6)].

Definition addressBook : list (string * list (string * string)) :=
  [("B", [("BTC", "bc1-destination")])].

(** A table of built-in properties holding the one entry the examples
    read, [Object.prototype.constructor.name]; every other read gives
    [undefined] here. *)
Definition sampleBuiltins : Builtins :=
  fun member k =>
    if String.eqb member "constructor" && String.eqb k "name"
    then Return (Text "Object")
    else Return Undefined.

(** A payload whose sell exchange and base asset are property names that
    every object inherits: [({}).constructor.name]. *)
Definition inheritedNameOpportunity : Opportunity.t :=
  opportunityOf "name/USDT" quoteA
    {| exchange := "constructor"; bid := 100.5; ask := 100.6 |}.

(** A payload naming exchange A on both sides. *)
Definition sameExchangeOpportunity : Opportunity.t :=
  opportunityOf "BTC/USDT"
    {| exchange := "A"; bid := 100; ask := 100.1 |}
    {| exchange := "A"; bid := 100.5; ask := 100.6 |}.

(* ================================================================= *)
(** ** Fixtures for the spread of 100 and 100.3 *)

Definition buyAt100 : Quote := {| exchange := "A"; bid := 99.9; ask := 100 |}.
Definition sellAt100_3 : Quote := {| exchange := "B"; bid := 100.3; ask := 100.4 |}.

Definition exampleExchanges : list (string * Exchange) :=
  [("A", quoting 99.9 100); ("B", quoting 100.3 100.4)].

(* ================================================================= *)
(** ** Start-up: [createExchangesFromEnv] and the module-level constants *)

(** The options object handed to a ccxt constructor. *)
Record Options := {
  apiKey : option string;
  secret : option string;
  password : option string;
  enableRateLimit : bool
}.

(** The part of the ccxt module the server reads: the list
    [ccxt.exchanges] and the classes [ccxt[id]]; a constructor either
    returns an instance or throws. *)
Record Ccxt := {
  ccxt_exchanges : list string;
  ccxt_class : string -> option (Options -> Completion Exchange)
}.

(** What [safeInit] writes to the console. *)
Inductive InitLog :=
| ConsoleWarnNotListed (id : string)
| ConsoleErrorCreateEx (id err : string).

(** [list.includes(id)] *)
Definition includes (l : list string) (id : string) : bool :=
  existsb (String.eqb id) l.

(** [o[k] = v] on an object used as a map: an existing key keeps its
    place, a new key goes last. *)
Fixpoint set {A : Type} (o : list (string * A)) (k : string) (v : A)
  : list (string * A) :=
  match o with
  | [] => [(k, v)]
  | (k', v') :: o' =>
      if String.eqb k' k then (k', v) :: o' else (k', v') :: set o' k v
  end.

(** [process.env.NAME || undefined] *)
Definition orUndefined (v : option string) : option string :=
  match v with
  | Some EmptyString => None
  | _ => v
  end.

(** [new cls(options)] for [cls = ccxt[id]]; a missing class is not a
    constructor. *)
Definition construct (ccxt : Ccxt) (id : string) (options : Options)
  : Completion Exchange :=
  match ccxt_class ccxt id with
  | Some cls => cls options
  | None => Throw "cls is not a constructor"
  end.

(** The closure [safeInit] of [createExchangesFromEnv]; the state is the
    object [ex] under construction and the console output so far. *)
Definition safeInit (ccxt : Ccxt) (id : string) (options : Options)
           (st : list (string * Exchange) * list InitLog)
  : list (string * Exchange) * list InitLog :=
  let (ex, log) := st in
  let log :=
    if negb (includes (ccxt_exchanges ccxt) id)
    then log ++ [ConsoleWarnNotListed id] else log in
  match construct ccxt id options with
  | Return instance => (set ex id instance, log)
  | Throw e => (ex, log ++ [ConsoleErrorCreateEx id e])
  end.

(** The options of an exchange without and with a passphrase. *)
Definition keyOptions (env : string -> option string) (apiKeyVar secretVar : string)
  : Options :=
  {| apiKey := orUndefined (env apiKeyVar);
     secret := orUndefined (env secretVar);
     password := None;
     enableRateLimit := true |}.

Definition okxOptions (env : string -> option string) : Options :=
  {| apiKey := orUndefined (env "OKX_APIKEY");
     secret := orUndefined (env "OKX_SECRET");
     password := orUndefined (env "OKX_PASSPHRASE");
     enableRateLimit := true |}.

(** [createExchangesFromEnv()], returning [ex] and the console output. *)
Definition createExchangesFromEnv (ccxt : Ccxt) (env : string -> option string)
  : list (string * Exchange) * list InitLog :=
  let listed := includes (ccxt_exchanges ccxt) in
  let st := ([], []) in
  let st := safeInit ccxt "binance" (keyOptions env "BINANCE_APIKEY" "BINANCE_SECRET") st in
  let st := safeInit ccxt "bybit" (keyOptions env "BYBIT_APIKEY" "BYBIT_SECRET") st in
  let st :=
    if listed "mexc"
    then safeInit ccxt "mexc" (keyOptions env "MEXC_APIKEY" "MEXC_SECRET") st
    else if listed "mxc"
    then safeInit ccxt "mxc" (keyOptions env "MEXC_APIKEY" "MEXC_SECRET") st
    else st in
  let st :=
    if listed "coinex"
    then safeInit ccxt "coinex" (keyOptions env "COINEX_APIKEY" "COINEX_SECRET") st
    else safeInit ccxt "coinex" (keyOptions env "COINEX_APIKEY" "COINEX_SECRET") st in
  let st :=
    if listed "okx" then safeInit ccxt "okx" (okxOptions env) st
    else if listed "okex" then safeInit ccxt "okex" (okxOptions env) st
    else st in
  st.

(** [const withdrawAddresses = {}], as the source ships it. *)
Definition withdrawAddresses_shipped : list (string * list (string * string)) := [].

(** The ids [createExchangesFromEnv] tries to build, in order, and the
    options each is built with. *)
Definition attempted (ccxt : Ccxt) : list string :=
  let listed := includes (ccxt_exchanges ccxt) in
  ["binance"; "bybit"]
  ++ (if listed "mexc" then ["mexc"] else if listed "mxc" then ["mxc"] else [])
  ++ ["coinex"]
  ++ (if listed "okx" then ["okx"] else if listed "okex" then ["okex"] else []).

Definition optionsOf (env : string -> option string) (id : string) : Options :=
  if String.eqb id "binance" then keyOptions env "BINANCE_APIKEY" "BINANCE_SECRET"
  else if String.eqb id "bybit" then keyOptions env "BYBIT_APIKEY" "BYBIT_SECRET"
  else if String.eqb id "mexc" || String.eqb id "mxc"
  then keyOptions env "MEXC_APIKEY" "MEXC_SECRET"
  else if String.eqb id "coinex" then keyOptions env "COINEX_APIKEY" "COINEX_SECRET"
  else okxOptions env.

(** Whether the constructor of [id] returns an instance. *)
Definition constructs (ccxt : Ccxt) (env : string -> option string) (id : string)
  : bool :=
  match construct ccxt id (optionsOf env id) with
  | Return _ => true
  | Throw _ => false
  end.

(** [safeInit] run over a list of ids, each with its own options. *)
Definition initAll (ccxt : Ccxt) (env : string -> option string) (ids : list string)
           (st : list (string * Exchange) * list InitLog)
  : list (string * Exchange) * list InitLog :=
  fold_left (fun st id => safeInit ccxt id (optionsOf env id) st) ids st.

(** The console output of one [safeInit]. *)
Definition initLogOf (ccxt : Ccxt) (env : string -> option string) (id : string)
  : list InitLog :=
  (if includes (ccxt_exchanges ccxt) id then [] else [ConsoleWarnNotListed id])
  ++ match construct ccxt id (optionsOf env id) with
     | Return _ => []
     | Throw e => [ConsoleErrorCreateEx id e]
     end.

(** A ccxt module that lists and builds bybit, mxc and okx only; its
    binance constructor throws. *)
Definition sampleCcxt : Ccxt :=
  {| ccxt_exchanges := ["binance"; "bybit"; "mxc"; "okx"];
     ccxt_class := fun id =>
       if String.eqb id "binance" then Some (fun _ => Throw "invalid credentials")
       else if String.eqb id "bybit" || String.eqb id "mxc" || String.eqb id "okx"
       then Some (fun _ => Return (quoting 100 100.1))
       else None |}.

Definition sampleEnv (name : string) : option string :=
  if String.eqb name "BYBIT_APIKEY" then Some "key"
  else if String.eqb name "BYBIT_SECRET" then Some ""
  else None.

(** A string without the character [/]. *)
Fixpoint no_slash (s : string) : bool :=
  match s with
  | EmptyString => true
  | String c r => negb (Ascii.eqb c "/"%char) && no_slash r
  end.

(** A payload whose prices are all zero: its spread is [0 / 0]. *)
Definition zeroPriceOpportunity : Opportunity.t :=
  opportunityOf "BTC/USDT"
    {| exchange := "A"; bid := 0; ask := 0 |}
    {| exchange := "B"; bid := 0; ask := 0 |}.

(** An address book whose entry for BTC on B is the empty string. *)
Definition emptyAddressBook : list (string * list (string * string)) :=
  [("B", [("BTC", "")])].

(* ================================================================= *)
(** ** Facts on binary64 arithmetic used by the sort comparators *)

Module JSNumberFacts.
Import JSNumber.

Lemma digits2_pos_size (p : positive) : digits2_pos p = Pos.size p.
Proof. induction p; simpl; congruence. Qed.

Lemma digits2_pos_bounds (p : positive) :
  2 ^ (Zpos (digits2_pos p) - 1) <= Zpos p < 2 ^ Zpos (digits2_pos p).
Proof.
  rewrite digits2_pos_size. split.
  - pose proof (Pos.size_le p) as H.
    assert (H2 : 2 ^ Zpos (Pos.size p) <= 2 * Zpos p).
    { change 2 with (Zpos 2) at 1. rewrite <- Pos2Z.inj_pow.
      change (2 * Zpos p) with (Zpos p~0). exact H. }
    replace (Zpos (Pos.size p)) with (Zpos (Pos.size p) - 1 + 1) in H2 by lia.
    rewrite Z.pow_add_r in H2 by lia. lia.
  - pose proof (Pos.size_gt p) as H.
    change 2 with (Zpos 2). rewrite <- Pos2Z.inj_pow. exact H.
Qed.

Lemma shr_1_m (r : shr_record) :
  0 <= shr_m r -> shr_m (shr_1 r) = shr_m r / 2.
Proof.
  destruct r as [m r s]; simpl. intros Hm.
  destruct m as [|[p|p|]|p]; try lia; cbn [shr_m]; try reflexivity.
  - apply Z.div_unique with (r := 1); lia.
  - apply Z.div_unique with (r := 0); lia.
Qed.

Lemma shr_1_nonneg (r : shr_record) : 0 <= shr_m r -> 0 <= shr_m (shr_1 r).
Proof.
  intros H. rewrite shr_1_m by assumption. apply Z.div_pos; lia.
Qed.

Lemma pow2_xO (p : positive) : 2 ^ Zpos p~0 = 2 ^ Zpos p * 2 ^ Zpos p.
Proof. rewrite <- Z.pow_add_r by lia. f_equal. lia. Qed.

Lemma pow2_xI (p : positive) : 2 ^ Zpos p~1 = 2 * (2 ^ Zpos p * 2 ^ Zpos p).
Proof.
  rewrite <- Z.pow_add_r by lia. rewrite <- Z.pow_succ_r by lia.
  f_equal. lia.
Qed.

Lemma iter_shr_m (p : positive) : forall r : shr_record,
  0 <= shr_m r ->
  shr_m (iter_pos shr_1 p r) = shr_m r / 2 ^ Zpos p.
Proof.
  induction p as [p IH|p IH|]; intros r Hr; simpl iter_pos.
  - assert (H1 : 0 <= shr_m (shr_1 r)) by now apply shr_1_nonneg.
    assert (H2 : 0 <= shr_m (iter_pos shr_1 p (shr_1 r))).
    { rewrite IH by assumption. apply Z.div_pos; lia. }
    rewrite IH by assumption. rewrite IH by assumption.
    rewrite shr_1_m by assumption.
    rewrite !Z.div_div by lia.
    f_equal. rewrite (pow2_xI p). lia.
  - assert (H2 : 0 <= shr_m (iter_pos shr_1 p r)).
    { rewrite IH by assumption. apply Z.div_pos; lia. }
    rewrite IH by assumption. rewrite IH by assumption.
    rewrite !Z.div_div by lia.
    f_equal. rewrite (pow2_xO p). lia.
  - rewrite shr_1_m by assumption. reflexivity.
Qed.

Lemma shr_record_of_loc_m (m : Z) (l : location) :
  shr_m (shr_record_of_loc m l) = m.
Proof. destruct l as [|[]]; reflexivity. Qed.

(** Shifting a positive mantissa to its canonical exponent never loses
    all of its bits, provided the exponent is not below [emin]. *)
Lemma shr_fexp_pos (m e : Z) (l : location) :
  0 < m -> emin <= e ->
  0 < shr_m (fst (shr_fexp prec emax m e l)) /\
  emin <= snd (shr_fexp prec emax m e l).
Proof.
  intros Hm He. unfold shr_fexp, shr.
  destruct m as [|p|p]; try lia. simpl Zdigits2.
  pose proof (digits2_pos_bounds p) as [Hlo _].
  set (d := Zpos (digits2_pos p)) in *.
  destruct (fexp prec emax (d + e) - e) as [|n|n] eqn:Hn; simpl fst; simpl snd;
    rewrite ?shr_record_of_loc_m; try (split; lia).
  rewrite iter_shr_m by (rewrite shr_record_of_loc_m; lia).
  rewrite shr_record_of_loc_m.
  unfold fexp, SpecFloat.emin, prec, emax in *.
  assert (Hd : Zpos n = d - 53) by lia.
  split; [|lia].
  apply Z.div_str_pos. split; [apply Z.pow_pos_nonneg; lia|].
  apply Z.le_trans with (2 ^ (d - 1)); [|exact Hlo].
  apply Z.pow_le_mono_r; lia.
Qed.

Lemma round_nearest_even_pos (m : Z) (l : location) :
  0 < m -> 0 < round_nearest_even m l.
Proof.
  intros Hm. destruct l as [|[]]; simpl; try lia.
  destruct (Z.even m); lia.
Qed.

Lemma binary_round_aux_sign (s : bool) (m e : Z) (l : location) :
  0 < m -> emin <= e ->
  signed_nonzero s (binary_round_aux prec emax s m e l).
Proof.
  intros Hm He. unfold binary_round_aux.
  pose proof (shr_fexp_pos m e l Hm He) as [H1 H2].
  destruct (shr_fexp prec emax m e l) as [r1 e1]. simpl in H1, H2.
  pose proof (round_nearest_even_pos (shr_m r1) (loc_of_shr_record r1) H1) as H3.
  pose proof (shr_fexp_pos _ e1 loc_Exact H3 H2) as [H4 H5].
  destruct (shr_fexp prec emax _ e1 loc_Exact) as [r2 e2]. simpl in H4, H5.
  destruct (shr_m r2) as [|q|q]; try lia.
  destruct (e2 <=? emax - prec); reflexivity.
Qed.

Lemma binary_round_sign (s : bool) (m : positive) (e : Z) :
  emin <= e -> signed_nonzero s (binary_round prec emax s m e).
Proof.
  intros He. unfold binary_round.
  destruct (shl_align m e _) as [mz ez] eqn:Hs.
  apply binary_round_aux_sign; [lia|].
  unfold shl_align in Hs.
  destruct (_ - e) as [|d|d] eqn:Hd; inversion Hs; subst; try lia.
  unfold fexp in *. lia.
Qed.

Lemma valid_finite_bounds (s : bool) (m : positive) (e : Z) :
  valid_binary (S754_finite s m e) = true ->
  emin <= e <= 971 /\ Zpos m < 2 ^ 53 /\ (emin < e -> 2 ^ 52 <= Zpos m).
Proof.
  unfold SpecFloat.valid_binary, bounded, canonical_mantissa, fexp.
  rewrite andb_true_iff, Z.eqb_eq, Z.leb_le.
  pose proof (digits2_pos_bounds m) as [Hlo Hhi].
  set (d := Zpos (digits2_pos m)) in *.
  unfold SpecFloat.emin, prec, emax. intros [Hc He].
  assert (Hd : d <= 53) by lia.
  split; [lia|]. split.
  - apply Z.lt_le_trans with (2 ^ d); [exact Hhi|].
    apply Z.pow_le_mono_r; lia.
  - intros Hgt. assert (d = 53) by lia. subst d.
    replace 52 with (Zpos (digits2_pos m) - 1) by lia. exact Hlo.
Qed.

Lemma pow2_pos (n : Z) : 0 <= n -> 0 < 2 ^ n.
Proof. intros. apply Z.pow_pos_nonneg; lia. Qed.

(** Canonical mantissas make the lexicographic comparison on
    (exponent, mantissa) agree with the comparison of magnitudes. *)
Lemma scaled_lt (s1 s2 : bool) (m1 m2 : positive) (e1 e2 : Z) :
  valid_binary (S754_finite s1 m1 e1) = true ->
  valid_binary (S754_finite s2 m2 e2) = true ->
  e1 < e2 ->
  Zpos m1 * 2 ^ (e1 + 1074) < Zpos m2 * 2 ^ (e2 + 1074).
Proof.
  intros H1 H2 Hlt.
  apply valid_finite_bounds in H1, H2.
  unfold SpecFloat.emin, prec, emax in *.
  destruct H1 as (He1 & Hm1 & _). destruct H2 as (He2 & _ & Hm2).
  change (2 ^ 53) with (2 * 2 ^ 52) in Hm1.
  set (C := 2 ^ 52) in *.
  assert (Hm2' : C <= Zpos m2) by (apply Hm2; lia). clear Hm2.
  replace (e2 + 1074) with ((e1 + 1074) + (e2 - e1)) by lia.
  rewrite (Z.pow_add_r 2 (e1 + 1074) (e2 - e1)) by lia.
  assert (HP : 0 < 2 ^ (e1 + 1074)) by (apply pow2_pos; lia).
  assert (HK : 2 ^ 1 <= 2 ^ (e2 - e1)) by (apply Z.pow_le_mono_r; lia).
  change (2 ^ 1) with 2 in HK.
  set (P := 2 ^ (e1 + 1074)) in *. set (K := 2 ^ (e2 - e1)) in *.
  assert (Zpos m1 * P < 2 * C * P) by nia.
  assert (2 * C * P <= 2 * Zpos m2 * P) by nia.
  assert (2 * (Zpos m2 * P) <= K * (Zpos m2 * P)) by (apply Z.mul_le_mono_nonneg_r; lia).
  lia.
Qed.

Lemma finite_lt_big (s : bool) (m : positive) (e : Z) :
  valid_binary (S754_finite s m e) = true ->
  0 < Zpos m * 2 ^ (e + 1074) < 2 ^ 2200.
Proof.
  intros H. apply valid_finite_bounds in H.
  unfold SpecFloat.emin, prec, emax in *. destruct H as (He & Hm & _).
  set (C := 2 ^ 53) in *.
  assert (HP : 0 < 2 ^ (e + 1074)) by (apply pow2_pos; lia).
  assert (HQ : 2 ^ (e + 1074) <= 2 ^ 2045) by (apply Z.pow_le_mono_r; lia).
  assert (HB : C * 2 ^ 2045 < 2 ^ 2200).
  { unfold C. rewrite <- Z.pow_add_r by lia. apply Z.pow_lt_mono_r; lia. }
  assert (HC : 0 < C) by (apply pow2_pos; lia).
  set (P := 2 ^ (e + 1074)) in *. set (Q := 2 ^ 2045) in *.
  set (B := 2 ^ 2200) in *.
  split; [lia|].
  assert (Zpos m * P <= C * Q) by (apply Z.mul_le_mono_nonneg; lia).
  lia.
Qed.

Ltac order_goal :=
  f_equal; symmetry;
  first [ apply Z.compare_lt_iff | apply Z.compare_gt_iff | apply Z.compare_eq_iff ].

(** On non-NaN values the IEEE comparison is the integer comparison of
    the embedded keys. *)
Lemma SFcompare_sval (x y : spec_float) :
  valid_binary x = true -> valid_binary y = true ->
  sf_is_nan x = false -> sf_is_nan y = false ->
  SFcompare x y = Some (sval x ?= sval y).
Proof.
  intros Vx Vy Nx Ny.
  destruct x as [sx|sx| |sx mx ex], y as [sy|sy| |sy my ey];
    try discriminate; clear Nx Ny;
    try (pose proof (finite_lt_big _ _ _ Vx) as Bx);
    try (pose proof (finite_lt_big _ _ _ Vy) as By);
    assert (HB : 0 < 2 ^ 2200) by (apply pow2_pos; lia);
    unfold SFcompare, sval, cond_Zopp;
    set (B := 2 ^ 2200) in *.
  - reflexivity.
  - destruct sy; order_goal; lia.
  - destruct sy; order_goal; lia.
  - destruct sx; order_goal; lia.
  - destruct sx, sy; order_goal; lia.
  - destruct sx, sy; order_goal; lia.
  - destruct sx; order_goal; lia.
  - destruct sx, sy; order_goal; lia.
  - destruct (Z.compare_spec ex ey) as [Heq|Hlt|Hgt].
    + subst ey. set (P := 2 ^ (ex + 1074)) in *.
      assert (HP : 0 < P) by lia.
      change (Pos.compare_cont Eq mx my) with (Zpos mx ?= Zpos my).
      destruct (Z.compare_spec (Zpos mx) (Zpos my)) as [E|L|G];
        destruct sx, sy; simpl CompOpp; order_goal; nia.
    + pose proof (scaled_lt _ _ _ _ _ _ Vx Vy Hlt).
      destruct sx, sy; order_goal; lia.
    + pose proof (scaled_lt _ _ _ _ _ _ Vy Vx Hgt).
      destruct sx, sy; order_goal; lia.
Qed.

Lemma shl_iter (m d : positive) :
  Zpos (Pos.iter xO m d) = Zpos m * 2 ^ Zpos d.
Proof.
  induction d as [|d IH] using Pos.peano_ind.
  - simpl. lia.
  - rewrite Pos.iter_succ, Pos2Z.inj_xO, IH, Pos2Z.inj_succ.
    rewrite Z.pow_succ_r by lia. lia.
Qed.

Lemma shl_align_fst (m : positive) (e e' : Z) :
  e' <= e -> Zpos (fst (shl_align m e e')) = Zpos m * 2 ^ (e - e').
Proof.
  intros Hle. unfold shl_align.
  destruct (e' - e) as [|d|d] eqn:Hd; simpl fst; try lia.
  - replace (e - e') with 0 by lia. simpl. lia.
  - rewrite shl_iter. f_equal. f_equal. lia.
Qed.

Lemma cond_Zopp_mul (s : bool) (a b : Z) :
  cond_Zopp s a * b = cond_Zopp s (a * b).
Proof. destruct s; simpl; lia. Qed.

Ltac cmp_case :=
  match goal with
  | |- context [?a ?= ?b] => destruct (Z.compare_spec a b)
  end;
  cbn [signed_nonzero zero_or_nan negb];
  first [reflexivity | exact I | lia].

(** The sign of a binary64 difference is the sign of the exact
    difference: gradual underflow never rounds a non-zero difference of
    two representable values to zero, and overflow keeps the sign. *)
Lemma SFsub_sign (x y : spec_float) :
  valid_binary x = true -> valid_binary y = true ->
  sf_is_nan x = false -> sf_is_nan y = false ->
  match sval x ?= sval y with
  | Lt => signed_nonzero true (SF64sub x y)
  | Gt => signed_nonzero false (SF64sub x y)
  | Eq => zero_or_nan (SF64sub x y)
  end.
Proof.
  intros Vx Vy Nx Ny.
  destruct x as [sx|sx| |sx mx ex], y as [sy|sy| |sy my ey];
    try discriminate; clear Nx Ny;
    try (pose proof (finite_lt_big _ _ _ Vx) as Bx);
    try (pose proof (finite_lt_big _ _ _ Vy) as By);
    assert (HB : 0 < 2 ^ 2200) by (apply pow2_pos; lia);
    unfold SF64sub, SFsub, sval;
    set (B := 2 ^ 2200) in *.
  - destruct sx, sy; exact I.
  - destruct sy; cbn [cond_Zopp]; cmp_case.
  - destruct sy; cbn [cond_Zopp]; cmp_case.
  - destruct sx; cbn [cond_Zopp]; cmp_case.
  - destruct sx, sy; cbn [cond_Zopp]; cmp_case.
  - destruct sx, sy; cbn [cond_Zopp]; cmp_case.
  - destruct sx; cbn [cond_Zopp]; cmp_case.
  - destruct sx, sy; cbn [cond_Zopp]; cmp_case.
  - apply valid_finite_bounds in Vx, Vy.
    destruct Vx as (Hex & _). destruct Vy as (Hey & _).
    set (ez := Z.min ex ey).
    assert (Hz : emin <= ez) by (unfold ez; lia).
    assert (Hzx : ez <= ex) by (unfold ez; lia).
    assert (Hzy : ez <= ey) by (unfold ez; lia).
    unfold SpecFloat.emin, prec, emax in Hex, Hey.
    set (M := cond_Zopp sx (Zpos (fst (shl_align mx ex ez))) -
              cond_Zopp sy (Zpos (fst (shl_align my ey ez)))).
    assert (HM : M * 2 ^ (ez + 1074) =
                 cond_Zopp sx (Zpos mx * 2 ^ (ex + 1074)) -
                 cond_Zopp sy (Zpos my * 2 ^ (ey + 1074))).
    { unfold M. rewrite Z.mul_sub_distr_r, !cond_Zopp_mul.
      rewrite !shl_align_fst by assumption.
      rewrite <- !Z.mul_assoc, <- !Z.pow_add_r
        by (unfold SpecFloat.emin, prec, emax in Hz; lia).
      replace (ex - ez + (ez + 1074)) with (ex + 1074) by lia.
      replace (ey - ez + (ez + 1074)) with (ey + 1074) by lia.
      reflexivity. }
    assert (HP : 0 < 2 ^ (ez + 1074)).
    { apply pow2_pos. unfold SpecFloat.emin, prec, emax in Hz. lia. }
    set (P := 2 ^ (ez + 1074)) in *.
    set (X := cond_Zopp sx (Zpos mx * 2 ^ (ex + 1074))) in *.
    set (Y := cond_Zopp sy (Zpos my * 2 ^ (ey + 1074))) in *.
    unfold binary_normalize.
    destruct M as [|q|q] eqn:HeqM.
    + assert (X = Y) by lia. rewrite (proj2 (Z.compare_eq_iff X Y)) by assumption.
      exact I.
    + assert (Y < X) by nia. rewrite (proj2 (Z.compare_gt_iff X Y)) by assumption.
      now apply binary_round_sign.
    + assert (X < Y) by nia. rewrite (proj2 (Z.compare_lt_iff X Y)) by assumption.
      now apply binary_round_sign.
Qed.

(** *** The same facts on primitive floats *)

Lemma is_nan_spec (x : float) : PrimFloat.is_nan x = sf_is_nan (Prim2SF x).
Proof.
  unfold PrimFloat.is_nan. rewrite FloatAxioms.eqb_spec. unfold SFeqb.
  pose proof (Prim2SF_valid x) as V.
  destruct (sf_is_nan (Prim2SF x)) eqn:N.
  - destruct (Prim2SF x); try discriminate. reflexivity.
  - rewrite (SFcompare_sval _ _ V V N N), Z.compare_refl. reflexivity.
Qed.

Section Comparisons.
Variables x y : float.
Hypothesis Nx : PrimFloat.is_nan x = false.
Hypothesis Ny : PrimFloat.is_nan y = false.

Lemma compare_key :
  SFcompare (Prim2SF x) (Prim2SF y) = Some (key x ?= key y).
Proof.
  rewrite is_nan_spec in Nx, Ny.
  apply SFcompare_sval; auto using Prim2SF_valid.
Qed.

Lemma ltb_key : (x <? y)%float = (key x <? key y).
Proof.
  rewrite FloatAxioms.ltb_spec. unfold SFltb. rewrite compare_key.
  unfold Z.ltb. destruct (key x ?= key y); reflexivity.
Qed.

Lemma leb_key : (x <=? y)%float = (key x <=? key y).
Proof.
  rewrite FloatAxioms.leb_spec. unfold SFleb. rewrite compare_key.
  unfold Z.leb. destruct (key x ?= key y); reflexivity.
Qed.

Lemma eqb_key : (x =? y)%float = (key x =? key y).
Proof.
  rewrite FloatAxioms.eqb_spec. unfold SFeqb. rewrite compare_key.
  destruct (Z.compare_spec (key x) (key y)) as [E|L|G]; symmetry.
  - now apply Z.eqb_eq.
  - apply Z.eqb_neq. lia.
  - apply Z.eqb_neq. lia.
Qed.

Lemma sub_sign :
  match key x ?= key y with
  | Lt => signed_nonzero true (Prim2SF (x - y))
  | Gt => signed_nonzero false (Prim2SF (x - y))
  | Eq => zero_or_nan (Prim2SF (x - y))
  end.
Proof.
  rewrite FloatAxioms.sub_spec. rewrite is_nan_spec in Nx, Ny.
  apply SFsub_sign; auto using Prim2SF_valid.
Qed.

(** [x - y < 0] exactly when [x < y]. *)
Lemma sub_ltb_zero : (x - y <? 0)%float = (key x <? key y).
Proof.
  rewrite FloatAxioms.ltb_spec. change (Prim2SF 0) with (S754_zero false).
  pose proof sub_sign as H. unfold Z.ltb.
  destruct (key x ?= key y); destruct (Prim2SF (x - y)) as [s|s| |s m e];
    simpl in H; try contradiction; subst; reflexivity.
Qed.

(** [0 < x - y] exactly when [y < x]. *)
Lemma zero_ltb_sub : (0 <? x - y)%float = (key y <? key x).
Proof.
  rewrite FloatAxioms.ltb_spec. change (Prim2SF 0) with (S754_zero false).
  pose proof sub_sign as H. unfold Z.ltb.
  rewrite (Z.compare_antisym (key x) (key y)).
  destruct (key x ?= key y); destruct (Prim2SF (x - y)) as [s|s| |s m e];
    simpl in H; try contradiction; subst; reflexivity.
Qed.
End Comparisons.

Lemma ltb_nan_r (u v : float) :
  PrimFloat.is_nan v = true -> (u <? v)%float = false.
Proof.
  rewrite is_nan_spec, FloatAxioms.ltb_spec. intros N.
  destruct (Prim2SF v); try discriminate.
  unfold SFltb, SFcompare. destruct (Prim2SF u); reflexivity.
Qed.

Lemma leb_true_not_nan (a b : float) :
  (a <=? b)%float = true ->
  PrimFloat.is_nan a = false /\ PrimFloat.is_nan b = false.
Proof.
  rewrite FloatAxioms.leb_spec, !is_nan_spec. unfold SFleb, SFcompare.
  destruct (Prim2SF a), (Prim2SF b); try discriminate; auto.
Qed.

(** [a <= b] excludes [b < a]. *)
Lemma leb_true_ltb_false (a b : float) :
  (a <=? b)%float = true -> (b <? a)%float = false.
Proof.
  intros H. destruct (leb_true_not_nan _ _ H) as [Na Nb].
  rewrite (leb_key _ _ Na Nb) in H. rewrite (ltb_key _ _ Nb Na).
  apply Z.leb_le in H. apply Z.ltb_ge. exact H.
Qed.

Lemma ToBoolean_not_nan (x : float) :
  ToBoolean x = true -> PrimFloat.is_nan x = false.
Proof.
  unfold ToBoolean. rewrite andb_true_iff, !negb_true_iff. tauto.
Qed.

End JSNumberFacts.

(** *** Facts on sorting with a comparator that reflects an integer key *)

Module JSArrayFacts.
Import JSArray.

Lemma filter_app_cons_inv {A : Type} (f : A -> bool) (l : list A) :
  forall (pre : list A) (h : A) (post : list A),
    filter f l = pre ++ h :: post ->
    exists l1 l2, l = l1 ++ h :: l2 /\ filter f l1 = pre /\ filter f l2 = post.
Proof.
  induction l as [|a l IH]; intros pre h post H; simpl in H.
  - destruct pre; discriminate.
  - destruct (f a) eqn:Fa.
    + destruct pre as [|p pre]; simpl in H; inversion H; subst.
      * exists [], l. simpl. auto.
      * destruct (IH _ _ _ H2) as (l1 & l2 & -> & <- & <-).
        exists (p :: l1), l2. simpl. rewrite Fa. auto.
    + destruct (IH _ _ _ H) as (l1 & l2 & -> & <- & <-).
      exists (a :: l1), l2. simpl. rewrite Fa. auto.
Qed.

Lemma StronglySorted_app_cons {A : Type} (R : A -> A -> Prop)
      (l1 : list A) (h : A) (l2 : list A) :
  StronglySorted R (l1 ++ h :: l2) -> Forall (R h) l2.
Proof.
  induction l1 as [|a l1 IH]; simpl; intros H; inversion H; subst; auto.
Qed.

Section KeyedSort.
Context {A : Type}.
Variable comparefn : A -> A -> float.
(** The comparator orders the elements of [dom] by the key [k]. *)
Variable k : A -> Z.
Variable dom : A -> Prop.
Hypothesis comparefn_after : forall x y, dom x -> dom y ->
  (0 <? SortCompare comparefn x y)%float = (k y <? k x).

Lemma insert_perm (x : A) (l : list A) :
  Permutation (insert comparefn x l) (x :: l).
Proof.
  induction l as [|y l IH]; simpl; [reflexivity|].
  destruct (0 <? SortCompare comparefn x y)%float; [|reflexivity].
  rewrite IH. apply perm_swap.
Qed.

Lemma sort_perm (l : list A) : Permutation (sort comparefn l) l.
Proof.
  induction l as [|x l IH]; simpl; [reflexivity|].
  rewrite insert_perm. now constructor.
Qed.

Lemma sort_dom (l : list A) : Forall dom l -> Forall dom (sort comparefn l).
Proof.
  intros H. rewrite Forall_forall in *. intros q Hq. apply H.
  eapply Permutation_in; [apply sort_perm|exact Hq].
Qed.

Lemma insert_sorted (x : A) (l : list A) :
  dom x -> Forall dom l ->
  StronglySorted (le_key k) l -> StronglySorted (le_key k) (insert comparefn x l).
Proof.
  intros Dx Dl Hs. induction Hs as [|y l Hs IH Hy]; simpl.
  - repeat constructor.
  - inversion Dl as [|? ? Dy Dl']; subst.
    rewrite (comparefn_after x y Dx Dy).
    destruct (Z.ltb_spec (k y) (k x)) as [Hlt|Hge].
    + constructor; [now apply IH|].
      rewrite Forall_forall in *. intros q Hq.
      apply (Permutation_in _ (insert_perm x l)) in Hq.
      destruct Hq as [<-|Hq]; [unfold le_key; lia|now apply Hy].
    + constructor; [now constructor|].
      constructor; [exact Hge|].
      rewrite Forall_forall in *. intros q Hq.
      specialize (Hy q Hq). unfold le_key in *. lia.
Qed.

Lemma sort_sorted (l : list A) :
  Forall dom l -> StronglySorted (le_key k) (sort comparefn l).
Proof.
  induction l as [|x l IH]; simpl; intros D; [constructor|].
  inversion D; subst. apply insert_sorted; auto using sort_dom.
Qed.

Lemma insert_filter (z : Z) (x : A) (l : list A) :
  dom x -> Forall dom l ->
  filter (has_key k z) (insert comparefn x l) = filter (has_key k z) (x :: l).
Proof.
  intros Dx Dl. induction l as [|y l IH]; [reflexivity|].
  inversion Dl as [|? ? Dy Dl']; subst. simpl insert.
  rewrite (comparefn_after x y Dx Dy).
  destruct (Z.ltb_spec (k y) (k x)) as [Hlt|Hge]; [|reflexivity].
  simpl filter in *. rewrite (IH Dl'). unfold has_key.
  destruct (Z.eqb_spec (k x) z), (Z.eqb_spec (k y) z); try reflexivity; lia.
Qed.

(** The sort is stable: elements with equal keys keep their order. *)
Lemma sort_stable (z : Z) (l : list A) :
  Forall dom l ->
  filter (has_key k z) (sort comparefn l) = filter (has_key k z) l.
Proof.
  induction l as [|x l IH]; intros D; [reflexivity|].
  inversion D; subst. simpl sort.
  rewrite insert_filter by auto using sort_dom.
  simpl. now rewrite IH.
Qed.

(** A sorted list is determined by the order of its elements within each
    key class: every stable sort returns the same array as [sort], so the
    choice of insertion sort for the engine's algorithm is immaterial. *)
Lemma stable_sorted_unique (l1 : list A) :
  forall l2 : list A,
    StronglySorted (le_key k) l1 -> StronglySorted (le_key k) l2 ->
    (forall z, filter (has_key k z) l1 = filter (has_key k z) l2) ->
    l1 = l2.
Proof.
  assert (R : forall a, has_key k (k a) a = true)
    by (intros; apply Z.eqb_refl).
  induction l1 as [|a t1 IH]; intros [|b t2] S1 S2 F.
  - reflexivity.
  - specialize (F (k b)). simpl in F. rewrite R in F. discriminate.
  - specialize (F (k a)). simpl in F. rewrite R in F. discriminate.
  - inversion S1 as [|? ? S1' M1]; inversion S2 as [|? ? S2' M2]; subst.
    rewrite Forall_forall in M1, M2. unfold le_key in M1, M2.
    assert (Hab : k b <= k a).
    { assert (Hin : In a (filter (has_key k (k a)) (b :: t2))).
      { rewrite <- F. simpl. rewrite R. now left. }
      apply filter_In in Hin. destruct Hin as [[<-|Hin] _]; [lia|now apply M2]. }
    assert (Hba : k a <= k b).
    { assert (Hin : In b (filter (has_key k (k b)) (a :: t1))).
      { rewrite F. simpl. rewrite R. now left. }
      apply filter_In in Hin. destruct Hin as [[<-|Hin] _]; [lia|now apply M1]. }
    assert (a = b).
    { pose proof (F (k a)) as Fa. simpl in Fa. rewrite R in Fa.
      replace (k a) with (k b) in Fa at 2 by lia. rewrite R in Fa.
      now inversion Fa. }
    subst b. f_equal. apply IH; auto.
    intros z. specialize (F z). simpl in F.
    destruct (has_key k z a); [now inversion F|exact F].
Qed.

Lemma sort_unique (l out : list A) :
  Forall dom l ->
  StronglySorted (le_key k) out ->
  (forall z, filter (has_key k z) out = filter (has_key k z) l) ->
  out = sort comparefn l.
Proof.
  intros D S F. apply stable_sorted_unique; auto using sort_sorted.
  intros z. now rewrite F, sort_stable.
Qed.

(** The first element after sorting is the first element of the input
    that carries the least key. *)
Lemma sort_head (l : list A) (h : A) (t : list A) :
  Forall dom l -> sort comparefn l = h :: t ->
  exists l1 l2, l = l1 ++ h :: l2 /\
    Forall (fun q => k h < k q) l1 /\ Forall (fun q => k h <= k q) l2.
Proof.
  intros D E.
  pose proof (sort_sorted l D) as S. rewrite E in S.
  pose proof (sort_stable (k h) l D) as F. rewrite E in F.
  inversion S as [|? ? _ Hmin]; subst.
  assert (Hall : forall q, In q l -> k h <= k q).
  { intros q Hq. apply (Permutation_in _ (Permutation_sym (sort_perm l))) in Hq.
    rewrite E in Hq. destruct Hq as [<-|Hq]; [lia|].
    rewrite Forall_forall in Hmin. now apply Hmin. }
  simpl in F. unfold has_key at 1 in F. rewrite Z.eqb_refl in F.
  symmetry in F. apply (filter_app_cons_inv _ _ []) in F.
  destruct F as (l1 & l2 & -> & F1 & _).
  exists l1, l2. split; [reflexivity|]. split.
  - rewrite Forall_forall. intros q Hq.
    assert (k h <= k q) by (apply Hall, in_or_app; auto).
    assert (k q <> k h).
    { intros Heq.
      assert (Hin : In q (filter (has_key k (k h)) l1)).
      { apply filter_In. split; [exact Hq|]. now apply Z.eqb_eq. }
      rewrite F1 in Hin. exact Hin. }
    lia.
  - rewrite Forall_forall. intros q Hq.
    apply Hall, in_or_app. right. now right.
Qed.
End KeyedSort.

Section TwoSorts.
Context {A : Type}.
Variables comparefn1 comparefn2 : A -> A -> float.
Variables k1 k2 : A -> Z.
Variable dom : A -> Prop.
Hypothesis after1 : forall x y, dom x -> dom y ->
  (0 <? SortCompare comparefn1 x y)%float = (k1 y <? k1 x).
Hypothesis after2 : forall x y, dom x -> dom y ->
  (0 <? SortCompare comparefn2 x y)%float = (k2 y <? k2 x).

(** Sorting an array that was already sorted by another key: the
    first element carries the least second key and, among those, the
    least first key; only among elements equal on both keys is it
    the first of the input. *)
Lemma sort_sort_head (l : list A) (h : A) (t : list A) :
  Forall dom l ->
  sort comparefn2 (sort comparefn1 l) = h :: t ->
  exists l1 l2, l = l1 ++ h :: l2 /\
    Forall (fun q => k2 h < k2 q \/ (k2 q = k2 h /\ k1 h < k1 q)) l1 /\
    Forall (fun q => k2 h < k2 q \/ (k2 q = k2 h /\ k1 h <= k1 q)) l2.
Proof.
  intros D E.
  pose proof (sort_dom comparefn1 dom l D) as D'.
  pose proof (sort_sorted comparefn1 k1 dom after1 l D) as S.
  pose proof (sort_stable comparefn1 k1 dom after1 (k1 h) l D) as F.
  pose proof (sort_perm comparefn1 l) as P.
  destruct (sort_head comparefn2 k2 dom after2 _ h t D' E)
    as (s1 & s2 & Es & Hs1 & Hs2).
  rewrite Es in S, F, P. clear E Es D'.
  apply StronglySorted_app_cons in S.
  rewrite filter_app in F. simpl in F.
  unfold has_key at 2 in F. rewrite Z.eqb_refl in F.
  symmetry in F. apply filter_app_cons_inv in F.
  destruct F as (l1 & l2 & -> & F1 & F2).
  rewrite Forall_forall in Hs1, Hs2, S. unfold le_key in S.
  assert (Hmem : forall q, In q (l1 ++ h :: l2) -> In q s1 \/ q = h \/ In q s2).
  { intros q Hq. apply (Permutation_in _ (Permutation_sym P)) in Hq.
    apply in_app_or in Hq. destruct Hq as [Hq|[Hq|Hq]]; auto. }
  exists l1, l2. split; [reflexivity|].
  split; rewrite Forall_forall; intros q Hq.
  - destruct (Z.eq_dec (k1 q) (k1 h)) as [Heq|Hne].
    + left. apply Hs1.
      assert (Hin : In q (filter (has_key k1 (k1 h)) l1)).
      { apply filter_In. split; [exact Hq|]. now apply Z.eqb_eq. }
      rewrite F1 in Hin. apply filter_In in Hin. tauto.
    + destruct (Hmem q) as [H|[H|H]].
      * apply in_or_app. now left.
      * left. now apply Hs1.
      * subst q. contradiction.
      * specialize (Hs2 q H). specialize (S q H). lia.
  - destruct (Hmem q) as [H|[H|H]].
    + apply in_or_app. right. now right.
    + left. now apply Hs1.
    + subst q. right. lia.
    + specialize (Hs2 q H). specialize (S q H). lia.
Qed.
End TwoSorts.

End JSArrayFacts.

(* ================================================================= *)
(** ** Facts on the price aggregator *)

Module AggregatorFacts.
Import JSNumber JSNumberFacts JSArray JSArrayFacts.

Lemma fetchPrice_returns (exchange : option Exchange) (pair : string) :
  exists v, fetchPrice exchange pair = Return v.
Proof.
  unfold fetchPrice.
  destruct exchange as [ex|]; [|now eexists].
  destruct (has ex) as [caps|]; [|now eexists].
  destruct (caps "fetchTicker"); simpl; [|now eexists].
  destruct (fetchTicker ex pair); simpl; now eexists.
Qed.

Lemma scanLoop_spec (exchanges : list (string * Exchange)) (pair : string)
      (ids : list string) :
  forall results,
    scanLoop exchanges pair ids results =
    Return (results ++ flat_map (quoteOf exchanges pair) ids).
Proof.
  induction ids as [|id ids IH]; intros results; simpl.
  - now rewrite app_nil_r.
  - unfold quoteOf.
    destruct (fetchPrice_returns (get exchanges id) pair) as [v ->]. simpl.
    destruct v as [[[b|] [a|] l]|]; simpl;
      rewrite ?IH, ?app_nil_r; try reflexivity.
    destruct (ToBoolean b && ToBoolean a); simpl;
      rewrite IH, ?app_nil_r, <- ?app_assoc; reflexivity.
Qed.

Lemma quoteOf_valid (exchanges : list (string * Exchange)) (pair id : string) :
  Forall validQuote (quoteOf exchanges pair id).
Proof.
  unfold quoteOf.
  destruct (fetchPrice _ pair) as [[[[b|] [a|] l]|]|]; try constructor.
  destruct (ToBoolean b && ToBoolean a) eqn:T; constructor; [|constructor].
  apply andb_true_iff in T. exact T.
Qed.

Lemma validQuotes_valid (exchanges : list (string * Exchange)) (pair : string) :
  Forall validQuote (validQuotes exchanges pair).
Proof.
  unfold validQuotes. induction (keys exchanges) as [|id ids IH]; simpl.
  - constructor.
  - apply Forall_app. split; [apply quoteOf_valid|exact IH].
Qed.

(** [scanPair] after its loop: the two sorts and the two reads of
    [results[0]]. *)
Lemma scanPair_unfold (exchanges : list (string * Exchange)) (pair : string) :
  scanPair exchanges pair =
  let valid := validQuotes exchanges pair in
  if (List.length valid <? 2)%nat then Return None
  else Return (Some {|
    Snapshot.pair := pair;
    Snapshot.bestBuy := hd_error (sort byAsk valid);
    Snapshot.bestSell := hd_error (sort byBidDesc (sort byAsk valid));
    Snapshot.all := sort byBidDesc (sort byAsk valid) |}).
Proof.
  unfold scanPair. rewrite scanLoop_spec. reflexivity.
Qed.

Lemma validQuote_not_nan (q : Quote) :
  validQuote q ->
  PrimFloat.is_nan (bid q) = false /\ PrimFloat.is_nan (ask q) = false.
Proof. intros [B K]. split; now apply ToBoolean_not_nan. Qed.

Lemma byAsk_after (x y : Quote) :
  validQuote x -> validQuote y ->
  (0 <? SortCompare byAsk x y)%float = (askKey y <? askKey x).
Proof.
  intros Vx Vy.
  apply validQuote_not_nan in Vx, Vy. destruct Vx as [_ Nx], Vy as [_ Ny].
  unfold SortCompare, byAsk, askKey.
  rewrite <- (zero_ltb_sub _ _ Nx Ny).
  destruct (PrimFloat.is_nan (ask x - ask y)) eqn:N; [|reflexivity].
  rewrite (ltb_nan_r 0 _ N). reflexivity.
Qed.

Lemma byBidDesc_after (x y : Quote) :
  validQuote x -> validQuote y ->
  (0 <? SortCompare byBidDesc x y)%float = (bidKeyDesc y <? bidKeyDesc x).
Proof.
  intros Vx Vy.
  apply validQuote_not_nan in Vx, Vy. destruct Vx as [Nx _], Vy as [Ny _].
  unfold SortCompare, byBidDesc, bidKeyDesc.
  replace (- key (bid y) <? - key (bid x)) with (key (bid x) <? key (bid y))
    by (destruct (Z.ltb_spec (key (bid x)) (key (bid y))),
                 (Z.ltb_spec (- key (bid y)) (- key (bid x))); try reflexivity; lia).
  rewrite <- (zero_ltb_sub _ _ Ny Nx).
  destruct (PrimFloat.is_nan (bid y - bid x)) eqn:N; [|reflexivity].
  rewrite (ltb_nan_r 0 _ N). reflexivity.
Qed.

Section KeyToFloat.
Variables x y : Quote.
Hypothesis Vx : validQuote x.
Hypothesis Vy : validQuote y.

Lemma ask_ltb : askKey x < askKey y -> (ask x <? ask y)%float = true.
Proof.
  destruct (validQuote_not_nan _ Vx) as [_ Nx], (validQuote_not_nan _ Vy) as [_ Ny].
  rewrite (ltb_key _ _ Nx Ny). apply Z.ltb_lt.
Qed.

Lemma ask_leb : askKey x <= askKey y -> (ask x <=? ask y)%float = true.
Proof.
  destruct (validQuote_not_nan _ Vx) as [_ Nx], (validQuote_not_nan _ Vy) as [_ Ny].
  rewrite (leb_key _ _ Nx Ny). apply Z.leb_le.
Qed.

Lemma bid_ltb : bidKeyDesc y < bidKeyDesc x -> (bid x <? bid y)%float = true.
Proof.
  destruct (validQuote_not_nan _ Vx) as [Nx _], (validQuote_not_nan _ Vy) as [Ny _].
  rewrite (ltb_key _ _ Nx Ny). unfold bidKeyDesc. intros H. apply Z.ltb_lt. lia.
Qed.

Lemma bid_leb : bidKeyDesc y <= bidKeyDesc x -> (bid x <=? bid y)%float = true.
Proof.
  destruct (validQuote_not_nan _ Vx) as [Nx _], (validQuote_not_nan _ Vy) as [Ny _].
  rewrite (leb_key _ _ Nx Ny). unfold bidKeyDesc. intros H. apply Z.leb_le. lia.
Qed.

Lemma bid_eqb : bidKeyDesc x = bidKeyDesc y -> (bid x =? bid y)%float = true.
Proof.
  destruct (validQuote_not_nan _ Vx) as [Nx _], (validQuote_not_nan _ Vy) as [Ny _].
  rewrite (eqb_key _ _ Nx Ny). unfold bidKeyDesc. intros H. apply Z.eqb_eq. lia.
Qed.
End KeyToFloat.

Lemma sort_cons {A : Type} (comparefn : A -> A -> float) (l : list A) :
  (1 <= List.length l)%nat -> exists h t, sort comparefn l = h :: t.
Proof.
  intros Hl. pose proof (Permutation_length (sort_perm comparefn l)) as E.
  destruct (sort comparefn l) as [|h t]; [simpl in E; lia|eauto].
Qed.

(** With two valid quotes or more both sorts leave a non-empty array and
    [scanPair] returns a snapshot with both selections defined. *)
Lemma scanPair_snapshot (exchanges : list (string * Exchange)) (pair : string) :
  let valid := validQuotes exchanges pair in
  (2 <= List.length valid)%nat ->
  exists buy tb sell ts,
    sort byAsk valid = buy :: tb /\
    sort byBidDesc (sort byAsk valid) = sell :: ts /\
    scanPair exchanges pair =
      Return (Some {| Snapshot.pair := pair;
                      Snapshot.bestBuy := Some buy;
                      Snapshot.bestSell := Some sell;
                      Snapshot.all := sell :: ts |}).
Proof.
  intros valid Hlen. rewrite scanPair_unfold. cbv zeta. fold valid.
  destruct (Nat.ltb_spec (List.length valid) 2); [lia|].
  destruct (sort_cons byAsk valid) as (buy & tb & Eb); [lia|].
  destruct (sort_cons byBidDesc (sort byAsk valid)) as (sell & ts & Es).
  { rewrite (Permutation_length (sort_perm byAsk valid)). lia. }
  exists buy, tb, sell, ts. rewrite Es. rewrite Eb. auto.
Qed.

End AggregatorFacts.

(* ================================================================= *)
(** ** Facts on the opportunity detector *)

Module DetectorFacts.
Import AggregatorFacts.

Lemma scanPair_returns (exchanges : list (string * Exchange)) (pair : string) :
  exists r, scanPair exchanges pair = Return r.
Proof.
  rewrite scanPair_unfold. cbv zeta.
  destruct (List.length _ <? 2)%nat; eauto.
Qed.

Lemma processPair_returns exchanges Date_now (pair : string) :
  M.outcome (processPair exchanges Date_now pair) = Return tt.
Proof.
  unfold processPair.
  destruct (scanPair_returns exchanges pair) as [[snap|] ->]; simpl; [|reflexivity].
  destruct (Snapshot.bestBuy snap), (Snapshot.bestSell snap); try reflexivity.
  simpl. destruct (_ && _); reflexivity.
Qed.

Lemma forPairs_spec exchanges Date_now (pairs : list string) :
  forPairs exchanges Date_now pairs =
  (flat_map (fun p => M.trace (processPair exchanges Date_now p)) pairs, Return tt).
Proof.
  induction pairs as [|p pairs IH]; simpl; [reflexivity|].
  pose proof (processPair_returns exchanges Date_now p) as R.
  destruct (processPair exchanges Date_now p) as [t c]. simpl in R. subst c.
  unfold M.bind. rewrite IH. reflexivity.
Qed.

(** The events of one pair, read off [processPair]. *)
Lemma processPair_trace exchanges Date_now (pair : string) :
  M.trace (processPair exchanges Date_now pair) =
  match scanPair exchanges pair with
  | Return (Some {| Snapshot.bestBuy := Some buy; Snapshot.bestSell := Some sell |}) =>
      EmitTicker pair buy sell (spreadOf buy sell) ::
      (if (MIN_ARBITRAGE_SPREAD <=? spreadOf buy sell)%float
          && negb (String.eqb (exchange buy) (exchange sell))
       then [EmitOpportunity
               {| Opportunity.timestamp := Date_now pair;
                  Opportunity.pair := pair;
                  Opportunity.bestBuy := buy;
                  Opportunity.bestSell := sell;
                  Opportunity.spread := spreadOf buy sell |}]
       else [])
  | _ => []
  end.
Proof.
  unfold processPair.
  destruct (scanPair exchanges pair) as [[[p [buy|] [sell|] l]|]|]; try reflexivity.
  unfold spreadOf. simpl. destruct (_ && _); reflexivity.
Qed.

Lemma mainLoop_cycle_spec exchanges Date_now :
  mainLoop_cycle exchanges Date_now =
  (flat_map (fun p => M.trace (processPair exchanges Date_now p)) PAIRS, Return tt).
Proof. unfold mainLoop_cycle. rewrite forPairs_spec. reflexivity. Qed.

Lemma mainLoop_cycle_trace exchanges Date_now :
  M.trace (mainLoop_cycle exchanges Date_now) =
  flat_map (fun p => M.trace (processPair exchanges Date_now p)) PAIRS.
Proof. rewrite mainLoop_cycle_spec. reflexivity. Qed.

(** Over any number of iterations [mainLoop] emits, cycle after cycle,
    the events of every pair. *)
Lemma mainLoop_trace (worlds : list (list (string * Exchange) * (string -> Z))) :
  mainLoop worlds =
  flat_map (fun w => flat_map (fun p => M.trace (processPair (fst w) (snd w) p)) PAIRS)
           worlds.
Proof.
  induction worlds as [|[exchanges Date_now] later IH]; [reflexivity|].
  cbn [mainLoop flat_map fst snd]. now rewrite IH, mainLoop_cycle_trace.
Qed.

End DetectorFacts.

(* ================================================================= *)
(** ** Claims on the price aggregator *)

Section AggregatorClaims.
Import JSArray JSArrayFacts AggregatorFacts.
Variable exchanges : list (string * Exchange).
Variable pair : string.

(** C1. With at least two valid quotes (truthy bid and ask), [scanPair]
    returns a snapshot whose [bestBuy] has the minimum ask among the
    valid quotes and whose [bestSell] has the maximum bid among them;
    with fewer than two valid quotes it returns [null]. *)
Theorem scanPair_best_of_valid_quotes :
  let valid := validQuotes exchanges pair in
  ((2 <= List.length valid)%nat ->
   exists snap buy sell,
     scanPair exchanges pair = Return (Some snap) /\
     Snapshot.bestBuy snap = Some buy /\
     Snapshot.bestSell snap = Some sell /\
     In buy valid /\ In sell valid /\
     (forall q, In q valid -> (ask buy <=? ask q)%float = true) /\
     (forall q, In q valid -> (bid q <=? bid sell)%float = true)) /\
  ((List.length valid < 2)%nat -> scanPair exchanges pair = Return None).
Proof.
  intros valid.
  pose proof (validQuotes_valid exchanges pair) as V. fold valid in V.
  split; intros Hlen.
  2:{ rewrite scanPair_unfold. cbv zeta. fold valid.
      destruct (Nat.ltb_spec (List.length valid) 2); [reflexivity|lia]. }
  destruct (scanPair_snapshot exchanges pair Hlen)
    as (buy & tb & sell & ts & Eb & Es & Hscan). fold valid in Eb, Es.
  pose proof (sort_perm byAsk valid) as P1.
  pose proof (sort_dom byAsk validQuote valid V) as V1.
  destruct (sort_head byAsk askKey validQuote byAsk_after valid buy tb V Eb)
    as (l1 & l2 & E1 & Hl1 & Hl2).
  destruct (sort_head byBidDesc bidKeyDesc validQuote byBidDesc_after _ sell ts V1 Es)
    as (s1 & s2 & E2 & Hs1 & Hs2).
  assert (Ib : In buy valid) by (rewrite E1; apply in_or_app; right; now left).
  assert (Is : In sell valid).
  { apply (Permutation_in _ P1). rewrite E2. apply in_or_app. right. now left. }
  rewrite Forall_forall in V, Hl1, Hl2, Hs1, Hs2.
  eexists _, buy, sell. split; [exact Hscan|].
  repeat split; try assumption.
  - intros q Hq. apply ask_leb; auto.
    rewrite E1 in Hq. apply in_app_or in Hq. destruct Hq as [Hq|[<-|Hq]].
    + specialize (Hl1 q Hq). lia.
    + lia.
    + now apply Hl2.
  - intros q Hq. apply bid_leb; auto.
    apply (Permutation_in _ (Permutation_sym P1)) in Hq.
    rewrite E2 in Hq. apply in_app_or in Hq. destruct Hq as [Hq|[<-|Hq]].
    + specialize (Hs1 q Hq). lia.
    + lia.
    + now apply Hs2.
Qed.

(** C7, as amended.  With at least two valid quotes the selection is
    determined as follows.  [bestBuy] is the first quote in adapter order
    with the minimum ask.  [bestSell] is read after the second sort of the
    array that the first sort left ordered by ask: among the quotes tied
    for the maximum bid it is the one with the lowest ask, and it is the
    first in adapter order only among quotes equal on both bid and ask. *)
Theorem scanPair_tie_break :
  let valid := validQuotes exchanges pair in
  (2 <= List.length valid)%nat ->
  exists snap buy sell,
    scanPair exchanges pair = Return (Some snap) /\
    Snapshot.bestBuy snap = Some buy /\
    Snapshot.bestSell snap = Some sell /\
    (exists before after, valid = before ++ buy :: after /\
       Forall (fun q => (ask buy <? ask q)%float = true) before /\
       Forall (fun q => (ask buy <=? ask q)%float = true) after) /\
    (exists before after, valid = before ++ sell :: after /\
       Forall (fun q => (bid q <? bid sell)%float = true \/
                        ((bid q =? bid sell)%float = true /\
                         (ask sell <? ask q)%float = true)) before /\
       Forall (fun q => (bid q <? bid sell)%float = true \/
                        ((bid q =? bid sell)%float = true /\
                         (ask sell <=? ask q)%float = true)) after).
Proof.
  intros valid Hlen.
  pose proof (validQuotes_valid exchanges pair) as V. fold valid in V.
  destruct (scanPair_snapshot exchanges pair Hlen)
    as (buy & tb & sell & ts & Eb & Es & Hscan). fold valid in Eb, Es.
  destruct (sort_head byAsk askKey validQuote byAsk_after valid buy tb V Eb)
    as (l1 & l2 & E1 & Hl1 & Hl2).
  destruct (sort_sort_head byAsk byBidDesc askKey bidKeyDesc validQuote
              byAsk_after byBidDesc_after valid sell ts V Es)
    as (s1 & s2 & E2 & Hs1 & Hs2).
  rewrite Forall_forall in V, Hl1, Hl2, Hs1, Hs2.
  assert (Vl : forall q, In q l1 \/ In q l2 -> validQuote q).
  { intros q Hq. apply V. rewrite E1. apply in_or_app.
    destruct Hq; [now left|right; now right]. }
  assert (Vr : forall q, In q s1 \/ In q s2 -> validQuote q).
  { intros q Hq. apply V. rewrite E2. apply in_or_app.
    destruct Hq; [now left|right; now right]. }
  assert (Vb : validQuote buy).
  { apply V. rewrite E1. apply in_or_app. right. now left. }
  assert (Vs : validQuote sell).
  { apply V. rewrite E2. apply in_or_app. right. now left. }
  eexists _, buy, sell. split; [exact Hscan|].
  split; [reflexivity|]. split; [reflexivity|]. split.
  - exists l1, l2. split; [exact E1|].
    split; rewrite Forall_forall; intros q Hq.
    + apply ask_ltb; auto.
    + apply ask_leb; auto.
  - exists s1, s2. split; [exact E2|].
    split; rewrite Forall_forall; intros q Hq.
    + destruct (Hs1 q Hq) as [H|[H1 H2]].
      * left. apply bid_ltb; auto.
      * right. split; [apply bid_eqb; auto|apply ask_ltb; auto].
    + destruct (Hs2 q Hq) as [H|[H1 H2]].
      * left. apply bid_ltb; auto.
      * right. split; [apply bid_eqb; auto|apply ask_leb; auto].
Qed.
End AggregatorClaims.

Lemma scanPair_best_of_valid_quotes_witness :
  exists snap buy sell,
    scanPair scenarioExchanges "BTC/USDT" = Return (Some snap) /\
    Snapshot.bestBuy snap = Some buy /\
    Snapshot.bestSell snap = Some sell /\
    In buy (validQuotes scenarioExchanges "BTC/USDT") /\
    In sell (validQuotes scenarioExchanges "BTC/USDT") /\
    (forall q, In q (validQuotes scenarioExchanges "BTC/USDT") ->
               (ask buy <=? ask q)%float = true) /\
    (forall q, In q (validQuotes scenarioExchanges "BTC/USDT") ->
               (bid q <=? bid sell)%float = true).
Proof.
  apply (proj1 (scanPair_best_of_valid_quotes scenarioExchanges "BTC/USDT")).
  vm_compute. lia.
Defined.

(** C7, as stated, fails for [bestSell]: with A quoting 10 / 12 and B
    quoting 10 / 11 both bids tie, A is first in adapter order, and
    [scanPair] selects B. *)
Lemma scanPair_tie_break_counterexample :
  validQuotes tiedExchanges "BTC/USDT" =
    [{| exchange := "A"; bid := 10; ask := 12 |};
     {| exchange := "B"; bid := 10; ask := 11 |}] /\
  firstMaxBid (validQuotes tiedExchanges "BTC/USDT") =
    Some {| exchange := "A"; bid := 10; ask := 12 |} /\
  exists snap,
    scanPair tiedExchanges "BTC/USDT" = Return (Some snap) /\
    Snapshot.bestSell snap = Some {| exchange := "B"; bid := 10; ask := 11 |} /\
    Snapshot.bestSell snap <> firstMaxBid (validQuotes tiedExchanges "BTC/USDT").
Proof.
  split; [reflexivity|]. split; [reflexivity|].
  eexists. split; [reflexivity|]. split; [reflexivity|].
  vm_compute. discriminate.
Qed.

Lemma scanPair_tie_break_witness :
  exists snap buy sell,
    scanPair tiedExchanges "BTC/USDT" = Return (Some snap) /\
    Snapshot.bestBuy snap = Some buy /\
    Snapshot.bestSell snap = Some sell /\
    (exists before after,
       validQuotes tiedExchanges "BTC/USDT" = before ++ buy :: after /\
       Forall (fun q => (ask buy <? ask q)%float = true) before /\
       Forall (fun q => (ask buy <=? ask q)%float = true) after) /\
    (exists before after,
       validQuotes tiedExchanges "BTC/USDT" = before ++ sell :: after /\
       Forall (fun q => (bid q <? bid sell)%float = true \/
                        ((bid q =? bid sell)%float = true /\
                         (ask sell <? ask q)%float = true)) before /\
       Forall (fun q => (bid q <? bid sell)%float = true \/
                        ((bid q =? bid sell)%float = true /\
                         (ask sell <=? ask q)%float = true)) after).
Proof.
  apply (scanPair_tie_break tiedExchanges "BTC/USDT").
  vm_compute. lia.
Defined.

(* ================================================================= *)
(** ** Claims on the opportunity detector *)

Section DetectorClaims.
Import DetectorFacts.
Variable exchanges : list (string * Exchange).
Variable Date_now : string -> Z.

(** C2. In a detection cycle an opportunity event is emitted for a pair
    exactly when the pair has a snapshot whose spread
    [(bestSell.bid - bestBuy.ask) / bestBuy.ask] is at least
    [MIN_ARBITRAGE_SPREAD] and whose best-buy exchange differs from its
    best-sell exchange; so none is emitted when both are the same
    exchange, whatever the spread. *)
Theorem opportunity_emitted_iff (pair : string) :
  In pair PAIRS ->
  ((exists o, In (EmitOpportunity o) (M.trace (mainLoop_cycle exchanges Date_now)) /\
              Opportunity.pair o = pair)
   <->
   (exists snap buy sell,
      scanPair exchanges pair = Return (Some snap) /\
      Snapshot.bestBuy snap = Some buy /\
      Snapshot.bestSell snap = Some sell /\
      (MIN_ARBITRAGE_SPREAD <=? spreadOf buy sell)%float = true /\
      exchange buy <> exchange sell)).
Proof.
  intros Hpair. rewrite mainLoop_cycle_trace. split.
  - intros (o & Hin & Ho). apply in_flat_map in Hin.
    destruct Hin as (p & _ & Hin). rewrite processPair_trace in Hin.
    destruct (scanPair exchanges p) as [[[p' [buy|] [sell|] l]|]|] eqn:Hscan;
      try contradiction.
    destruct Hin as [Hin|Hin]; [discriminate|].
    destruct ((MIN_ARBITRAGE_SPREAD <=? spreadOf buy sell)%float) eqn:Hs;
      simpl in Hin; [|contradiction].
    destruct (String.eqb_spec (exchange buy) (exchange sell)) as [|Hne];
      simpl in Hin; [contradiction|].
    destruct Hin as [Hin|[]]. inversion Hin; subst o. simpl in Ho. subst p.
    eexists _, buy, sell. rewrite Hscan. auto.
  - intros (snap & buy & sell & Hscan & Hb & Hs & Hspread & Hne).
    exists {| Opportunity.timestamp := Date_now pair;
              Opportunity.pair := pair;
              Opportunity.bestBuy := buy;
              Opportunity.bestSell := sell;
              Opportunity.spread := spreadOf buy sell |}.
    split; [|reflexivity].
    apply in_flat_map. exists pair. split; [exact Hpair|].
    rewrite processPair_trace, Hscan.
    destruct snap as [p' b' s' l]. simpl in Hb, Hs. subst b' s'.
    rewrite Hspread. apply String.eqb_neq in Hne. rewrite Hne.
    simpl. auto.
Qed.

(** C5. An adapter that throws while one pair is scanned does not keep
    the other pairs of the cycle from being processed: the cycle ends
    normally, its events are those of every pair of [PAIRS] in order, each
    pair with a snapshot has its ticker emitted, and the [catch] around
    the loop is never entered. *)
Theorem mainLoop_cycle_isolates_pairs :
  mainLoop_cycle exchanges Date_now =
    (flat_map (fun p => M.trace (processPair exchanges Date_now p)) PAIRS,
     Return tt) /\
  (forall pair snap buy sell,
     In pair PAIRS ->
     scanPair exchanges pair = Return (Some snap) ->
     Snapshot.bestBuy snap = Some buy ->
     Snapshot.bestSell snap = Some sell ->
     In (EmitTicker pair buy sell (spreadOf buy sell))
        (M.trace (mainLoop_cycle exchanges Date_now))) /\
  (forall e, ~ In (ConsoleError e) (M.trace (mainLoop_cycle exchanges Date_now))).
Proof.
  rewrite mainLoop_cycle_trace.
  split; [apply mainLoop_cycle_spec|]. split.
  - intros pair snap buy sell Hpair Hscan Hb Hs.
    apply in_flat_map. exists pair. split; [exact Hpair|].
    rewrite processPair_trace, Hscan.
    destruct snap as [p' b' s' l]. simpl in Hb, Hs. subst b' s'.
    now left.
  - intros e Hin. apply in_flat_map in Hin.
    destruct Hin as (p & _ & Hin). rewrite processPair_trace in Hin.
    destruct (scanPair exchanges p) as [[[p' [buy|] [sell|] l]|]|];
      try contradiction.
    destruct Hin as [Hin|Hin]; [discriminate|].
    destruct (_ && _); simpl in Hin; [|contradiction].
    destruct Hin as [Hin|[]]. discriminate.
Qed.
End DetectorClaims.

Lemma opportunity_emitted_iff_witness :
  (exists o, In (EmitOpportunity o)
                (M.trace (mainLoop_cycle scenarioExchanges (fun _ => 0))) /\
             Opportunity.pair o = "BTC/USDT")
  <->
  (exists snap buy sell,
     scanPair scenarioExchanges "BTC/USDT" = Return (Some snap) /\
     Snapshot.bestBuy snap = Some buy /\
     Snapshot.bestSell snap = Some sell /\
     (MIN_ARBITRAGE_SPREAD <=? spreadOf buy sell)%float = true /\
     exchange buy <> exchange sell).
Proof.
  apply (opportunity_emitted_iff scenarioExchanges (fun _ => 0) "BTC/USDT").
  simpl. left. reflexivity.
Defined.

Lemma mainLoop_cycle_isolates_pairs_witness :
  In (EmitTicker "ETH/USDT"
        {| exchange := "A"; bid := 100; ask := 100.1 |}
        {| exchange := "B"; bid := 100.5; ask := 100.6 |}
        (spreadOf {| exchange := "A"; bid := 100; ask := 100.1 |}
                  {| exchange := "B"; bid := 100.5; ask := 100.6 |}))
     (M.trace (mainLoop_cycle partlyFailingExchanges (fun _ => 0))).
Proof.
  eapply (proj1 (proj2 (mainLoop_cycle_isolates_pairs partlyFailingExchanges
                          (fun _ => 0)))).
  - simpl. right. left. reflexivity.
  - vm_compute. reflexivity.
  - reflexivity.
  - reflexivity.
Defined.

(* ================================================================= *)
(** ** Facts on the execution orchestrator *)

Module ExecutionFacts.
Import JSNumberFacts.

Lemma ltb_nan_l (u v : float) :
  PrimFloat.is_nan u = true -> (u <? v)%float = false.
Proof.
  rewrite is_nan_spec, FloatAxioms.ltb_spec. intros N.
  destruct (Prim2SF u); try discriminate. reflexivity.
Qed.

(** The address lookup when neither level finds anything, own or
    inherited. *)
Lemma addressEntry_missing (builtins : Builtins)
      (withdrawAddresses : list (string * list (string * string)))
      (exchange asset : string) :
  get withdrawAddresses exchange = None ->
  inheritedName exchange = false ->
  addressEntry builtins withdrawAddresses exchange asset = Return Undefined.
Proof. intros Hg Hi. unfold addressEntry. now rewrite Hg, Hi. Qed.

Section AfterBuy.
Variable builtins : Builtins.
Variable exchanges : list (string * Exchange).
Variable withdrawAddresses : list (string * list (string * string)).
Variable opportunity : Opportunity.t.
Variable buyEx : Exchange.
Variable caps : string -> bool.
Variable order : Order.

Let pair := Opportunity.pair opportunity.
Let bestBuy := Opportunity.bestBuy opportunity.
Let bestSell := Opportunity.bestSell opportunity.
Let asset := split_slash_0 pair.
Let baseAmount := baseAmountOf opportunity.
Let bought :=
  [CallCreateMarketOrder (exchange bestBuy) pair "buy" baseAmount;
   EmitLog (LogBought baseAmount asset (exchange bestBuy) (ask bestBuy))].

Hypothesis spread_ok : (spreadOf bestBuy bestSell <? MIN_ARBITRAGE_SPREAD)%float = false.
Hypothesis buyEx_found : get exchanges (exchange bestBuy) = Some buyEx.
Hypothesis buyEx_has : has buyEx = Some caps.
Hypothesis can_order : caps "createMarketOrder" = true.
Hypothesis buy_succeeds : createMarketOrder buyEx pair "buy" baseAmount = Return order.

(** What an execution does once the buy has returned. *)
Lemma after_buy :
  executeArbitrage builtins exchanges withdrawAddresses opportunity =
  match addressEntry builtins withdrawAddresses (exchange bestSell) asset with
  | Throw e =>
      (bought, Return {| ok := false; reason := Some "order failed";
                         err := Some e; note := None |})
  | Return address =>
      if truthy address then
        if caps "withdraw" then
          match withdraw buyEx asset baseAmount address with
          | Return tx =>
              (bought ++ [CallWithdraw (exchange bestBuy) asset baseAmount address;
                          EmitLog (LogWithdrawRequested (exchange bestBuy) tx);
                          EmitLog (LogWaitingDeposit (exchange bestSell))],
               Return awaitingDeposit)
          | Throw e =>
              (bought ++ [CallWithdraw (exchange bestBuy) asset baseAmount address;
                          EmitLog (LogWithdrawFailed e)],
               Return {| ok := false; reason := Some "withdraw failed";
                         err := Some e; note := None |})
          end
        else
          (bought ++ [EmitLog (LogWithdrawUnsupported (exchange bestBuy))],
           Return (failure "withdraw not supported"))
      else
        (bought ++ [EmitLog (LogNoDestination asset (exchange bestSell))],
         Return (failure "no destination address"))
  end.
Proof.
  unfold executeArbitrage.
  unfold spreadOf, bestBuy, bestSell in spread_ok. rewrite spread_ok.
  unfold bestBuy in buyEx_found. rewrite buyEx_found, buyEx_has, can_order.
  unfold pair, baseAmount, baseAmountOf in buy_succeeds. cbv zeta. simpl negb. cbv iota.
  unfold call. rewrite buy_succeeds.
  unfold bought, asset, baseAmount, baseAmountOf, pair, bestBuy, bestSell.
  destruct (addressEntry builtins withdrawAddresses _ _) as [address|e];
    [|reflexivity].
  unfold M.lift, M.bind at 3. cbv iota beta.
  destruct (truthy address); simpl negb; cbv iota; [|reflexivity].
  destruct (caps "withdraw"); [|reflexivity].
  destruct (withdraw buyEx _ _ address); reflexivity.
Qed.

(** A falsy lookup ends the execution after the buy. *)
Lemma no_destination (address : Value) :
  addressEntry builtins withdrawAddresses (exchange bestSell) asset = Return address ->
  truthy address = false ->
  M.outcome (executeArbitrage builtins exchanges withdrawAddresses opportunity) =
    Return (failure "no destination address") /\
  adapterCalls (M.trace (executeArbitrage builtins exchanges withdrawAddresses opportunity)) =
    [CallCreateMarketOrder (exchange bestBuy) pair "buy" baseAmount].
Proof.
  intros Ha Ht. rewrite after_buy, Ha, Ht. split; reflexivity.
Qed.
End AfterBuy.

(** Past revalidation, with an adapter that can place orders, the first
    effect is the buy call. *)
Lemma buy_attempted (builtins : Builtins) (exchanges : list (string * Exchange))
      (withdrawAddresses : list (string * list (string * string)))
      (opportunity : Opportunity.t) (buyEx : Exchange) (caps : string -> bool) :
  (spreadOf (Opportunity.bestBuy opportunity) (Opportunity.bestSell opportunity)
     <? MIN_ARBITRAGE_SPREAD)%float = false ->
  get exchanges (exchange (Opportunity.bestBuy opportunity)) = Some buyEx ->
  has buyEx = Some caps ->
  caps "createMarketOrder" = true ->
  exists rest,
    M.trace (executeArbitrage builtins exchanges withdrawAddresses opportunity) =
    CallCreateMarketOrder (exchange (Opportunity.bestBuy opportunity))
      (Opportunity.pair opportunity) "buy" (baseAmountOf opportunity) :: rest.
Proof.
  intros Hspread Hfound Hhas Hcan.
  destruct (createMarketOrder buyEx (Opportunity.pair opportunity) "buy"
              (baseAmountOf opportunity)) as [order|e] eqn:Hbuy.
  - rewrite (after_buy builtins exchanges withdrawAddresses opportunity buyEx caps
               order Hspread Hfound Hhas Hcan Hbuy).
    destruct (addressEntry _ _ _ _) as [address|e]; [|eexists; reflexivity].
    destruct (truthy address); [|eexists; reflexivity].
    destruct (caps "withdraw"); [|eexists; reflexivity].
    destruct (withdraw buyEx _ _ _); eexists; reflexivity.
  - unfold executeArbitrage. unfold spreadOf in Hspread. rewrite Hspread.
    rewrite Hfound, Hhas, Hcan.
    cbv zeta. simpl negb. cbv iota. unfold call. unfold baseAmountOf in Hbuy.
    rewrite Hbuy. eexists; reflexivity.
Qed.

(** Only the threshold test answers "spread too low": a payload that
    passes it is never answered so, whatever the adapters, the address
    book and the built-in objects are. *)
Lemma past_revalidation (builtins : Builtins) (exchanges : list (string * Exchange))
      (withdrawAddresses : list (string * list (string * string)))
      (opportunity : Opportunity.t) :
  (spreadOf (Opportunity.bestBuy opportunity) (Opportunity.bestSell opportunity)
     <? MIN_ARBITRAGE_SPREAD)%float = false ->
  M.outcome (executeArbitrage builtins exchanges withdrawAddresses opportunity) <>
    Return (failure "spread too low").
Proof.
  intros Hspread.
  destruct (get exchanges (exchange (Opportunity.bestBuy opportunity)))
    as [buyEx|] eqn:Hfound.
  2:{ unfold executeArbitrage. unfold spreadOf in Hspread.
      rewrite Hspread, Hfound. discriminate. }
  destruct (has buyEx) as [caps|] eqn:Hhas.
  2:{ unfold executeArbitrage. unfold spreadOf in Hspread.
      rewrite Hspread, Hfound, Hhas. discriminate. }
  destruct (caps "createMarketOrder") eqn:Hcan.
  2:{ unfold executeArbitrage. unfold spreadOf in Hspread.
      rewrite Hspread, Hfound, Hhas, Hcan. discriminate. }
  destruct (createMarketOrder buyEx (Opportunity.pair opportunity) "buy"
              (baseAmountOf opportunity)) as [order|e] eqn:Hbuy.
  - rewrite (after_buy builtins exchanges withdrawAddresses opportunity buyEx caps
               order Hspread Hfound Hhas Hcan Hbuy).
    destruct (addressEntry _ _ _ _) as [address|e]; [|discriminate].
    destruct (truthy address); [|discriminate].
    destruct (caps "withdraw"); [|discriminate].
    destruct (withdraw buyEx _ _ _); discriminate.
  - unfold executeArbitrage. unfold spreadOf in Hspread.
    rewrite Hspread, Hfound, Hhas, Hcan.
    cbv zeta. simpl negb. cbv iota. unfold call. unfold baseAmountOf in Hbuy.
    rewrite Hbuy. discriminate.
Qed.

(** The threshold test is the only source of the answer "spread too
    low". *)
Lemma spread_too_low_iff (builtins : Builtins) (exchanges : list (string * Exchange))
      (withdrawAddresses : list (string * list (string * string)))
      (opportunity : Opportunity.t) :
  M.outcome (executeArbitrage builtins exchanges withdrawAddresses opportunity) =
    Return (failure "spread too low") <->
  (spreadOf (Opportunity.bestBuy opportunity) (Opportunity.bestSell opportunity)
     <? MIN_ARBITRAGE_SPREAD)%float = true.
Proof.
  split.
  - intros Hout.
    destruct (spreadOf _ _ <? MIN_ARBITRAGE_SPREAD)%float eqn:Hs; [reflexivity|].
    exfalso. revert Hout. now apply past_revalidation.
  - intros Hs. unfold executeArbitrage. unfold spreadOf in Hs. rewrite Hs.
    reflexivity.
Qed.

End ExecutionFacts.

(* ================================================================= *)
(** ** Claims on the execution orchestrator *)

Section ExecutionClaims.
Import JSNumberFacts.
Variable builtins : Builtins.
Variable exchanges : list (string * Exchange).
Variable withdrawAddresses : list (string * list (string * string)).
Variable opportunity : Opportunity.t.

Let pair := Opportunity.pair opportunity.
Let bestBuy := Opportunity.bestBuy opportunity.
Let bestSell := Opportunity.bestSell opportunity.
Let asset := split_slash_0 pair.
Let baseAmount := baseAmountOf opportunity.
Let run := executeArbitrage builtins exchanges withdrawAddresses opportunity.
Let buyCall := CallCreateMarketOrder (exchange bestBuy) pair "buy" baseAmount.

(** C3. When the recomputed spread is strictly below
    [MIN_ARBITRAGE_SPREAD], [executeArbitrage] returns
    [{ok: false, reason: "spread too low"}] and has no effect at all: no
    order is placed and no withdrawal is requested. *)
Theorem executeArbitrage_spread_too_low :
  (spreadOf bestBuy bestSell <? MIN_ARBITRAGE_SPREAD)%float = true ->
  run = ([], Return (failure "spread too low")) /\
  adapterCalls (M.trace run) = [].
Proof.
  intros H. unfold run, executeArbitrage. unfold spreadOf, bestBuy, bestSell in H.
  rewrite H. split; reflexivity.
Qed.

Section BuySucceeds.
Variable buyEx : Exchange.
Variable caps : string -> bool.
Variable order : Order.
Hypothesis spread_ok : (spreadOf bestBuy bestSell <? MIN_ARBITRAGE_SPREAD)%float = false.
Hypothesis buyEx_found : get exchanges (exchange bestBuy) = Some buyEx.
Hypothesis buyEx_has : has buyEx = Some caps.
Hypothesis can_order : caps "createMarketOrder" = true.
Hypothesis buy_succeeds : createMarketOrder buyEx pair "buy" baseAmount = Return order.

(** C6. Once the withdraw step is reached (the buy succeeded and the
    address lookup gave a truthy value): without the [withdraw] capability
    the result is [{ok: false, reason: "withdraw not supported"}]; when the
    withdrawal request throws, it is
    [{ok: false, reason: "withdraw failed", err}] with the error of the
    request; when the request succeeds, it is [ok: true] with the note
    that the deposit must be confirmed and the sell made by hand.  In each
    case the buy has been placed. *)
Theorem executeArbitrage_withdraw_step (address : Value) :
  addressEntry builtins withdrawAddresses (exchange bestSell) asset = Return address ->
  truthy address = true ->
  let withdrawCall := CallWithdraw (exchange bestBuy) asset baseAmount address in
  (caps "withdraw" = false ->
     M.outcome run = Return (failure "withdraw not supported") /\
     adapterCalls (M.trace run) = [buyCall]) /\
  (forall e, caps "withdraw" = true ->
     withdraw buyEx asset baseAmount address = Throw e ->
     M.outcome run = Return {| ok := false; reason := Some "withdraw failed";
                               err := Some e; note := None |} /\
     adapterCalls (M.trace run) = [buyCall; withdrawCall]) /\
  (forall tx, caps "withdraw" = true ->
     withdraw buyEx asset baseAmount address = Return tx ->
     M.outcome run = Return awaitingDeposit /\
     adapterCalls (M.trace run) = [buyCall; withdrawCall]).
Proof.
  intros Haddr Htruthy withdrawCall. unfold run.
  rewrite (ExecutionFacts.after_buy builtins exchanges withdrawAddresses opportunity
             buyEx caps order spread_ok buyEx_found buyEx_has can_order buy_succeeds).
  unfold asset, pair, bestSell in Haddr. rewrite Haddr, Htruthy.
  split; [|split].
  - intros Hw. rewrite Hw. split; reflexivity.
  - intros e Hw He. rewrite Hw.
    unfold asset, pair, baseAmount in He. rewrite He. split; reflexivity.
  - intros tx Hw Htx. rewrite Hw.
    unfold asset, pair, baseAmount in Htx. rewrite Htx. split; reflexivity.
Qed.
End BuySucceeds.

(** C9, as amended.  Revalidation only compares the spread with
    [MIN_ARBITRAGE_SPREAD]: a payload whose [bestBuy] and [bestSell] name
    the same exchange, with a spread of at least the threshold, is never
    rejected as "spread too low", whatever the adapters are; and when that
    exchange is a configured adapter with the [createMarketOrder]
    capability the first effect is a buy order on it. *)
Theorem executeArbitrage_same_exchange :
  exchange bestBuy = exchange bestSell ->
  (MIN_ARBITRAGE_SPREAD <=? spreadOf bestBuy bestSell)%float = true ->
  M.outcome run <> Return (failure "spread too low") /\
  (forall buyEx caps,
     get exchanges (exchange bestBuy) = Some buyEx ->
     has buyEx = Some caps ->
     caps "createMarketOrder" = true ->
     exists rest, M.trace run = buyCall :: rest).
Proof.
  intros _ Hspread. apply leb_true_ltb_false in Hspread. split.
  - now apply ExecutionFacts.past_revalidation.
  - intros buyEx caps Hfound Hhas Hcan.
    now apply (ExecutionFacts.buy_attempted builtins exchanges withdrawAddresses
                 opportunity buyEx caps).
Qed.
End ExecutionClaims.

(** C4 (defect of the code).  The address lookup reads
    [withdrawAddresses[bestSell.exchange][asset]] on object literals, so
    it also finds what they inherit.  With the address book empty, as
    shipped, a payload selling on "constructor" the pair "name/USDT"
    finds [Object.prototype.constructor.name], the string "Object": after
    the buy the execution requests a withdrawal of the bought amount to
    "Object" and returns [ok: true], where no destination address is
    configured. *)
Theorem executeArbitrage_inherited_address (builtins : Builtins) :
  builtins "constructor" "name" = Return (Text "Object") ->
  let opportunity := inheritedNameOpportunity in
  let amount := baseAmountOf opportunity in
  get withdrawAddresses_shipped (exchange (Opportunity.bestSell opportunity)) = None /\
  executeArbitrage builtins scenarioExchanges withdrawAddresses_shipped opportunity =
    ([CallCreateMarketOrder "A" "name/USDT" "buy" amount;
      EmitLog (LogBought amount "name" "A" 100.1);
      CallWithdraw "A" "name" amount "Object";
      EmitLog (LogWithdrawRequested "A" {| tx_id := None |});
      EmitLog (LogWaitingDeposit "constructor")],
     Return awaitingDeposit) /\
  M.outcome (executeArbitrage builtins scenarioExchanges withdrawAddresses_shipped
               opportunity) <> Return (failure "no destination address").
Proof.
  intros Hname opportunity amount.
  assert (Ha : addressEntry builtins withdrawAddresses_shipped
                 (exchange (Opportunity.bestSell opportunity))
                 (split_slash_0 (Opportunity.pair opportunity)) =
               Return (Text "Object")) by exact Hname.
  assert (Hrun : executeArbitrage builtins scenarioExchanges withdrawAddresses_shipped
                   opportunity =
    ([CallCreateMarketOrder "A" "name/USDT" "buy" amount;
      EmitLog (LogBought amount "name" "A" 100.1);
      CallWithdraw "A" "name" amount "Object";
      EmitLog (LogWithdrawRequested "A" {| tx_id := None |});
      EmitLog (LogWaitingDeposit "constructor")],
     Return awaitingDeposit)).
  { rewrite (ExecutionFacts.after_buy builtins scenarioExchanges
               withdrawAddresses_shipped opportunity (quoting 100 100.1)
               (fun _ => true) {| order_id := None |}
               eq_refl eq_refl eq_refl eq_refl eq_refl).
    rewrite Ha. reflexivity. }
  split; [reflexivity|]. split; [exact Hrun|].
  rewrite Hrun. discriminate.
Qed.

Lemma executeArbitrage_spread_too_low_witness :
  executeArbitrage sampleBuiltins scenarioExchanges []
                   (opportunityOf "BTC/USDT" quoteB quoteA) =
    ([], Return (failure "spread too low")) /\
  adapterCalls (M.trace (executeArbitrage sampleBuiltins scenarioExchanges []
                           (opportunityOf "BTC/USDT" quoteB quoteA))) = [].
Proof.
  apply (executeArbitrage_spread_too_low sampleBuiltins scenarioExchanges []
           (opportunityOf "BTC/USDT" quoteB quoteA)).
  reflexivity.
Defined.

Lemma executeArbitrage_inherited_address_witness :
  M.outcome (executeArbitrage sampleBuiltins scenarioExchanges
               withdrawAddresses_shipped inheritedNameOpportunity) =
    Return awaitingDeposit /\
  In (CallWithdraw "A" "name" (baseAmountOf inheritedNameOpportunity) "Object")
     (M.trace (executeArbitrage sampleBuiltins scenarioExchanges
                 withdrawAddresses_shipped inheritedNameOpportunity)).
Proof.
  destruct (executeArbitrage_inherited_address sampleBuiltins eq_refl)
    as (_ & Hrun & _).
  rewrite Hrun. split; [reflexivity|]. simpl. auto.
Defined.

Lemma executeArbitrage_withdraw_step_witness :
  M.outcome (executeArbitrage sampleBuiltins [("A", tradingOnly false)] addressBook
               (opportunityOf "BTC/USDT" quoteA quoteB)) =
    Return (failure "withdraw not supported") /\
  M.outcome (executeArbitrage sampleBuiltins [("A", tradingOnly true)] addressBook
               (opportunityOf "BTC/USDT" quoteA quoteB)) =
    Return {| ok := false; reason := Some "withdraw failed";
              err := Some "address not whitelisted"; note := None |} /\
  M.outcome (executeArbitrage sampleBuiltins scenarioExchanges addressBook
               (opportunityOf "BTC/USDT" quoteA quoteB)) =
    Return awaitingDeposit.
Proof.
  split; [|split].
  - destruct (executeArbitrage_withdraw_step sampleBuiltins
                [("A", tradingOnly false)] addressBook
                (opportunityOf "BTC/USDT" quoteA quoteB)
                (tradingOnly false) _ {| order_id := Some "o-1" |}
                eq_refl eq_refl eq_refl eq_refl eq_refl (Text "bc1-destination")
                eq_refl eq_refl) as (H & _ & _).
    apply H. reflexivity.
  - destruct (executeArbitrage_withdraw_step sampleBuiltins
                [("A", tradingOnly true)] addressBook
                (opportunityOf "BTC/USDT" quoteA quoteB)
                (tradingOnly true) _ {| order_id := Some "o-1" |}
                eq_refl eq_refl eq_refl eq_refl eq_refl (Text "bc1-destination")
                eq_refl eq_refl) as (_ & H & _).
    apply H; reflexivity.
  - destruct (executeArbitrage_withdraw_step sampleBuiltins scenarioExchanges
                addressBook
                (opportunityOf "BTC/USDT" quoteA quoteB)
                (quoting 100 100.1) _ {| order_id := None |}
                eq_refl eq_refl eq_refl eq_refl eq_refl (Text "bc1-destination")
                eq_refl eq_refl) as (_ & _ & H).
    apply (H {| tx_id := None |}); reflexivity.
Defined.

(** C9, as stated, fails when the named exchange cannot place orders: the
    payload passes revalidation but no buy order is placed. *)
Lemma executeArbitrage_same_exchange_counterexample :
  exchange (Opportunity.bestBuy sameExchangeOpportunity) =
    exchange (Opportunity.bestSell sameExchangeOpportunity) /\
  (MIN_ARBITRAGE_SPREAD <=?
     spreadOf (Opportunity.bestBuy sameExchangeOpportunity)
              (Opportunity.bestSell sameExchangeOpportunity))%float = true /\
  forall builtins,
    executeArbitrage builtins [("A", readOnly 100 100.1)] [] sameExchangeOpportunity =
      ([], Return (failure "buy exchange cannot create orders via API")).
Proof. repeat split. Qed.

Lemma executeArbitrage_same_exchange_witness :
  M.outcome (executeArbitrage sampleBuiltins scenarioExchanges []
               sameExchangeOpportunity) <>
    Return (failure "spread too low") /\
  exists rest,
    M.trace (executeArbitrage sampleBuiltins scenarioExchanges []
               sameExchangeOpportunity) =
    CallCreateMarketOrder "A" "BTC/USDT" "buy"
      (baseAmountOf sameExchangeOpportunity) :: rest.
Proof.
  destruct (executeArbitrage_same_exchange sampleBuiltins scenarioExchanges []
              sameExchangeOpportunity eq_refl eq_refl) as (Hout & Hbuy).
  split; [exact Hout|].
  apply (Hbuy (quoting 100 100.1) (fun _ => true)); reflexivity.
Defined.

(* ================================================================= *)
(** ** The spread of 100 and 100.3 *)

(** C8, as stated, fails: in binary64 arithmetic the spread computed for
    [bestBuy.ask = 100] and [bestSell.bid = 100.3] is not the number
    [0.003]; it is neither the double written [0.003] nor the rational
    3/1000 (the key of a finite double is its value times [2^1074]). *)
Lemma spread_exact_counterexample :
  (spreadOf buyAt100 sellAt100_3 =? 0.003)%float = false /\
  spreadOf buyAt100 sellAt100_3 <> 0.003%float /\
  1000 * JSNumber.key (spreadOf buyAt100 sellAt100_3) <> 3 * 2 ^ 1074.
Proof.
  split; [reflexivity|]. split.
  - intros H. apply (f_equal Prim2SF) in H. vm_compute in H. discriminate.
  - vm_compute. discriminate.
Qed.

(** C8, as amended.  For [bestBuy.ask = 100] and [bestSell.bid = 100.3]
    the computed spread is the double 0.0029999999999999714, that is
    6917529027641016 * 2^-61, which is within 3e-17 of 0.003; it is at
    least [MIN_ARBITRAGE_SPREAD = 0.002], so [mainLoop] emits the
    opportunity and [executeArbitrage] does not reject it as "spread too
    low". *)
Theorem spread_of_100_and_100_3 :
  spreadOf buyAt100 sellAt100_3 = 0.0029999999999999714%float /\
  Prim2SF (spreadOf buyAt100 sellAt100_3) =
    S754_finite false 6917529027641016 (-61) /\
  Z.abs (1000 * JSNumber.key (spreadOf buyAt100 sellAt100_3) - 3 * 2 ^ 1074)
    * 10 ^ 17 < 3 * 1000 * 2 ^ 1074 /\
  (MIN_ARBITRAGE_SPREAD <=? spreadOf buyAt100 sellAt100_3)%float = true /\
  In (EmitOpportunity (opportunityOf "BTC/USDT" buyAt100 sellAt100_3))
     (M.trace (mainLoop_cycle exampleExchanges (fun _ => 0))) /\
  (forall builtins,
     M.outcome (executeArbitrage builtins exampleExchanges []
                  (opportunityOf "BTC/USDT" buyAt100 sellAt100_3)) =
       Return (failure "no destination address")).
Proof.
  split; [reflexivity|]. split; [reflexivity|].
  split; [vm_compute; reflexivity|]. split; [reflexivity|].
  split; [|reflexivity].
  vm_compute. right. left. reflexivity.
Qed.

(* ================================================================= *)
(** ** Totality of the price fetch *)

(** C10. [fetchPrice] never throws: it returns [null] when the adapter is
    absent, when it has no capability table or lacks [fetchTicker], and
    when the ticker call throws; hence [scanPair] never throws either and
    returns [null] or a snapshot. *)
Theorem fetchPrice_total (exchanges : list (string * Exchange))
        (exchange : option Exchange) (pair : string) :
  (exists v, fetchPrice exchange pair = Return v) /\
  (exchange = None -> fetchPrice exchange pair = Return None) /\
  (forall ex, exchange = Some ex -> has ex = None ->
              fetchPrice exchange pair = Return None) /\
  (forall ex caps, exchange = Some ex -> has ex = Some caps ->
                   caps "fetchTicker" = false ->
                   fetchPrice exchange pair = Return None) /\
  (forall ex e, exchange = Some ex -> fetchTicker ex pair = Throw e ->
                fetchPrice exchange pair = Return None) /\
  (exists r, scanPair exchanges pair = Return r).
Proof.
  split; [apply AggregatorFacts.fetchPrice_returns|].
  split; [intros ->; reflexivity|].
  split; [intros ex -> H; unfold fetchPrice; rewrite H; reflexivity|].
  split; [intros ex caps -> H1 H2; unfold fetchPrice; rewrite H1, H2; reflexivity|].
  split; [|apply DetectorFacts.scanPair_returns].
  intros ex e -> H. unfold fetchPrice.
  destruct (has ex) as [caps|]; [|reflexivity].
  destruct (caps "fetchTicker"); [|reflexivity].
  simpl. rewrite H. reflexivity.
Qed.

Lemma fetchPrice_total_witness :
  fetchPrice (Some failing) "BTC/USDT" = Return None /\
  fetchPrice (Some {| has := None;
                      fetchTicker := fetchTicker failing;
                      createMarketOrder := createMarketOrder failing;
                      withdraw := withdraw failing |}) "BTC/USDT" = Return None /\
  fetchPrice None "BTC/USDT" = Return None.
Proof.
  split; [|split].
  - destruct (fetchPrice_total [] (Some failing) "BTC/USDT") as (_ & _ & _ & _ & H & _).
    apply (H failing "ticker unavailable"); reflexivity.
  - destruct (fetchPrice_total [] (Some {| has := None;
                      fetchTicker := fetchTicker failing;
                      createMarketOrder := createMarketOrder failing;
                      withdraw := withdraw failing |}) "BTC/USDT")
      as (_ & _ & H & _).
    eapply H; reflexivity.
  - destruct (fetchPrice_total [] None "BTC/USDT") as (_ & H & _).
    apply H. reflexivity.
Defined.


(* ================================================================= *)
(** ** Start-up: the exchanges object *)

Module StartupFacts.

Lemma get_set_same {A : Type} (o : list (string * A)) (k : string) (v : A) :
  get (set o k v) k = Some v.
Proof.
  induction o as [|[k' v'] o IH]; simpl.
  - now rewrite String.eqb_refl.
  - destruct (String.eqb k' k) eqn:E; simpl; rewrite E; auto.
Qed.

Lemma get_set_other {A : Type} (o : list (string * A)) (k k' : string) (v : A) :
  k <> k' -> get (set o k v) k' = get o k'.
Proof.
  intros Hne. induction o as [|[k0 v0] o IH]; simpl.
  - apply String.eqb_neq in Hne. now rewrite Hne.
  - destruct (String.eqb k0 k) eqn:E; simpl.
    + apply String.eqb_eq in E. subst k0.
      apply String.eqb_neq in Hne. now rewrite Hne.
    + destruct (String.eqb k0 k'); auto.
Qed.

Lemma keys_set_new {A : Type} (o : list (string * A)) (k : string) (v : A) :
  ~ In k (keys o) -> keys (set o k v) = keys o ++ [k].
Proof.
  induction o as [|[k' v'] o IH]; simpl; intros Hn; [reflexivity|].
  destruct (String.eqb_spec k' k) as [->|Hne]; [tauto|].
  simpl. f_equal. apply IH. tauto.
Qed.

Lemma get_In_keys {A : Type} (o : list (string * A)) (k : string) :
  In k (keys o) <-> exists v, get o k = Some v.
Proof.
  induction o as [|[k' v'] o IH]; simpl.
  - split; [tauto|intros [v H]; discriminate].
  - destruct (String.eqb_spec k' k) as [->|Hne].
    + split; eauto.
    + rewrite <- IH. tauto.
Qed.

Section InitAll.
Variable ccxt : Ccxt.
Variable env : string -> option string.
#[local] Abbreviation initAll := (initAll ccxt env).
#[local] Abbreviation initLogOf := (initLogOf ccxt env).

Lemma initAll_cons (id : string) (ids : list string) st :
  initAll (id :: ids) st = initAll ids (safeInit ccxt id (optionsOf env id) st).
Proof. reflexivity. Qed.

Lemma createExchangesFromEnv_initAll :
  createExchangesFromEnv ccxt env = initAll (attempted ccxt) ([], []).
Proof.
  unfold createExchangesFromEnv, attempted. cbv zeta.
  destruct (includes (ccxt_exchanges ccxt) "mexc"),
           (includes (ccxt_exchanges ccxt) "mxc"),
           (includes (ccxt_exchanges ccxt) "coinex"),
           (includes (ccxt_exchanges ccxt) "okx"),
           (includes (ccxt_exchanges ccxt) "okex"); reflexivity.
Qed.

Lemma attempted_NoDup : NoDup (attempted ccxt).
Proof.
  unfold attempted. cbv zeta.
  destruct (includes (ccxt_exchanges ccxt) "mexc"),
           (includes (ccxt_exchanges ccxt) "mxc"),
           (includes (ccxt_exchanges ccxt) "okx"),
           (includes (ccxt_exchanges ccxt) "okex");
    repeat (constructor; [simpl; intuition discriminate|]); constructor.
Qed.

Lemma initAll_keys (ids : list string) :
  forall ex log,
    NoDup (keys ex ++ ids) ->
    keys (fst (initAll ids (ex, log))) = keys ex ++ filter (constructs ccxt env) ids.
Proof.
  induction ids as [|id ids IH]; intros ex log Hnd.
  - simpl. now rewrite app_nil_r.
  - assert (Hid : ~ In id (keys ex)).
    { apply NoDup_remove_2 in Hnd. intros H. apply Hnd. apply in_or_app. now left. }
    rewrite initAll_cons. unfold safeInit. cbn [filter]. unfold constructs at 1.
    destruct (construct ccxt id (optionsOf env id)) as [instance|e].
    + rewrite IH; rewrite keys_set_new by assumption.
      * now rewrite <- app_assoc.
      * rewrite <- app_assoc. simpl.
        apply NoDup_Add with (a := id) (l := keys ex ++ ids).
        -- apply Add_app.
        -- split; [now apply NoDup_remove_1 in Hnd|now apply NoDup_remove_2 in Hnd].
    + rewrite IH; [reflexivity|]. now apply NoDup_remove_1 in Hnd.
Qed.

Lemma initAll_get (ids : list string) :
  NoDup ids ->
  forall ex log id,
    get (fst (initAll ids (ex, log))) id =
    if includes ids id then
      match construct ccxt id (optionsOf env id) with
      | Return instance => Some instance
      | Throw _ => get ex id
      end
    else get ex id.
Proof.
  unfold includes.
  induction ids as [|a ids IH]; intros Hnd ex log id; [reflexivity|].
  inversion Hnd as [|? ? Ha Hnd']; subst.
  rewrite initAll_cons. unfold safeInit. cbn [existsb].
  destruct (String.eqb_spec id a) as [->|Hne]; cbn [orb].
  - assert (Hx : existsb (String.eqb a) ids = false).
    { destruct (existsb (String.eqb a) ids) eqn:E; [|reflexivity].
      apply existsb_exists in E. destruct E as (x & Hx & Ex).
      apply String.eqb_eq in Ex. subst x. contradiction. }
    destruct (construct ccxt a (optionsOf env a)) as [instance|e];
      rewrite IH by assumption; rewrite Hx; [apply get_set_same|reflexivity].
  - destruct (construct ccxt a (optionsOf env a)) as [instance|e];
      rewrite IH by assumption.
    + rewrite get_set_other by congruence.
      destruct (existsb (String.eqb id) ids); [|reflexivity].
      destruct (construct ccxt id (optionsOf env id)); reflexivity.
    + reflexivity.
Qed.

Lemma initAll_log (ids : list string) :
  forall ex log,
    snd (initAll ids (ex, log)) = log ++ flat_map initLogOf ids.
Proof.
  induction ids as [|id ids IH]; intros ex log.
  - simpl. now rewrite app_nil_r.
  - rewrite initAll_cons. unfold safeInit. cbn [flat_map]. unfold initLogOf at 1.
    destruct (includes (ccxt_exchanges ccxt) id);
      destruct (construct ccxt id (optionsOf env id)); simpl;
      rewrite IH, <- ?app_assoc; reflexivity.
Qed.
End InitAll.

End StartupFacts.

Section StartupProperties.
Import StartupFacts.
Variable ccxt : Ccxt.
Variable env : string -> option string.

(** X1. The object [createExchangesFromEnv] returns holds, in the fixed
    order binance, bybit, mexc or mxc, coinex, okx or okex, exactly the
    attempted ids whose constructor returned: a constructor that throws
    only drops its own id.  Hence its keys are distinct, there are at most
    five, and it never holds both spellings of MEXC or of OKX. *)
Theorem createExchangesFromEnv_keys :
  let ex := fst (createExchangesFromEnv ccxt env) in
  keys ex = filter (constructs ccxt env) (attempted ccxt) /\
  NoDup (keys ex) /\
  (List.length (keys ex) <= 5)%nat /\
  ~ (In "mexc" (keys ex) /\ In "mxc" (keys ex)) /\
  ~ (In "okx" (keys ex) /\ In "okex" (keys ex)).
Proof.
  intros ex.
  assert (E : keys ex = filter (constructs ccxt env) (attempted ccxt)).
  { unfold ex. rewrite createExchangesFromEnv_initAll.
    rewrite initAll_keys; [reflexivity|apply attempted_NoDup]. }
  split; [exact E|]. rewrite E.
  split; [apply NoDup_filter, attempted_NoDup|].
  split.
  { eapply Nat.le_trans; [apply filter_length_le|].
    unfold attempted. cbv zeta.
    destruct (includes (ccxt_exchanges ccxt) "mexc"),
             (includes (ccxt_exchanges ccxt) "mxc"),
             (includes (ccxt_exchanges ccxt) "okx"),
             (includes (ccxt_exchanges ccxt) "okex"); simpl; lia. }
  split; intros [H1 H2]; apply filter_In in H1, H2;
    destruct H1 as [H1 _], H2 as [H2 _]; revert H1 H2;
    unfold attempted; cbv zeta;
    destruct (includes (ccxt_exchanges ccxt) "mexc"),
             (includes (ccxt_exchanges ccxt) "mxc"),
             (includes (ccxt_exchanges ccxt) "okx"),
             (includes (ccxt_exchanges ccxt) "okex"); simpl;
    intuition discriminate.
Qed.

(** X2. Looking an id up in the object [createExchangesFromEnv] returns
    gives the instance its constructor returned, for the options read
    from the environment, and gives nothing for an id that was not
    attempted or whose constructor threw. *)
Theorem createExchangesFromEnv_get (id : string) (instance : Exchange) :
  get (fst (createExchangesFromEnv ccxt env)) id = Some instance <->
  In id (attempted ccxt) /\
  construct ccxt id (optionsOf env id) = Return instance.
Proof.
  rewrite createExchangesFromEnv_initAll.
  rewrite (initAll_get ccxt env _ (attempted_NoDup ccxt)).
  unfold includes. simpl get.
  destruct (existsb (String.eqb id) (attempted ccxt)) eqn:E.
  - apply existsb_exists in E. destruct E as (x & Hx & Ex).
    apply String.eqb_eq in Ex. subst x.
    destruct (construct ccxt id (optionsOf env id)) as [i|e]; split.
    + intros H. inversion H. auto.
    + intros [_ H]. inversion H. reflexivity.
    + discriminate.
    + intros [_ H]. discriminate.
  - split; [discriminate|]. intros [Hin _].
    assert (existsb (String.eqb id) (attempted ccxt) = true).
    { apply existsb_exists. exists id. split; [exact Hin|apply String.eqb_refl]. }
    congruence.
Qed.

(** X3. Start-up reports what it drops: [console.error] is written for
    exactly the attempted ids whose constructor threw, with the thrown
    message, and the not-listed warning only for binance, bybit and
    coinex, which are attempted whether or not [ccxt.exchanges] lists
    them. *)
Theorem createExchangesFromEnv_log (id : string) :
  (forall e,
     In (ConsoleErrorCreateEx id e) (snd (createExchangesFromEnv ccxt env)) <->
     In id (attempted ccxt) /\
     construct ccxt id (optionsOf env id) = Throw e) /\
  (In (ConsoleWarnNotListed id) (snd (createExchangesFromEnv ccxt env)) <->
   In id ["binance"; "bybit"; "coinex"] /\
   includes (ccxt_exchanges ccxt) id = false).
Proof.
  rewrite createExchangesFromEnv_initAll, initAll_log, app_nil_l.
  split.
  - intros e. split.
    + intros H. apply in_flat_map in H. destruct H as (x & Hx & Hin).
      unfold initLogOf in Hin.
      apply in_app_or in Hin. destruct Hin as [Hin|Hin].
      * destruct (includes _ x); [contradiction|].
        destruct Hin as [Hin|[]]. discriminate.
      * destruct (construct ccxt x (optionsOf env x)) as [i|e'] eqn:C;
          [contradiction|].
        destruct Hin as [Hin|[]]. inversion Hin; subst. auto.
    + intros [Hin C]. apply in_flat_map. exists id. split; [exact Hin|].
      unfold initLogOf. rewrite C. apply in_or_app. right. now left.
  - split.
    + intros H. apply in_flat_map in H. destruct H as (x & Hx & Hin).
      unfold initLogOf in Hin.
      apply in_app_or in Hin. destruct Hin as [Hin|Hin].
      * destruct (includes (ccxt_exchanges ccxt) x) eqn:L; [contradiction|].
        destruct Hin as [Hin|[]]. inversion Hin; subst x. split; [|exact L].
        revert Hx L. unfold attempted. cbv zeta.
        destruct (includes (ccxt_exchanges ccxt) "mexc") eqn:L1,
                 (includes (ccxt_exchanges ccxt) "mxc") eqn:L2,
                 (includes (ccxt_exchanges ccxt) "okx") eqn:L3,
                 (includes (ccxt_exchanges ccxt) "okex") eqn:L4; simpl;
          intuition (subst; congruence).
      * destruct (construct ccxt x (optionsOf env x)); [contradiction|].
        destruct Hin as [Hin|[]]. discriminate.
    + intros [Hin L]. apply in_flat_map. exists id. split.
      * unfold attempted. cbv zeta. simpl in Hin.
        destruct Hin as [<-|[<-|[<-|[]]]]; simpl; auto.
        right. right. apply in_or_app. right. now left.
      * unfold initLogOf. rewrite L. apply in_or_app. left. now left.
Qed.
End StartupProperties.

Lemma createExchangesFromEnv_get_witness :
  get (fst (createExchangesFromEnv sampleCcxt sampleEnv)) "bybit" =
  Some (quoting 100 100.1).
Proof.
  apply (createExchangesFromEnv_get sampleCcxt sampleEnv "bybit").
  split; [vm_compute; auto|reflexivity].
Defined.

Lemma createExchangesFromEnv_log_witness :
  In (ConsoleErrorCreateEx "binance" "invalid credentials")
     (snd (createExchangesFromEnv sampleCcxt sampleEnv)).
Proof.
  apply (proj1 (createExchangesFromEnv_log sampleCcxt sampleEnv "binance")).
  split; [vm_compute; auto|reflexivity].
Defined.

Lemma createExchangesFromEnv_keys_witness :
  keys (fst (createExchangesFromEnv sampleCcxt sampleEnv)) = ["bybit"; "mxc"; "okx"].
Proof.
  rewrite (proj1 (createExchangesFromEnv_keys sampleCcxt sampleEnv)).
  reflexivity.
Defined.

(* ================================================================= *)
(** ** More on the price aggregator *)

Module SnapshotFacts.
Import JSNumber JSNumberFacts JSArray JSArrayFacts AggregatorFacts StartupFacts.

Lemma fetchPrice_price (exchange : option Exchange) (pair : string) (price : Price) :
  fetchPrice exchange pair = Return (Some price) <->
  exists ex caps ticker,
    exchange = Some ex /\ has ex = Some caps /\ caps "fetchTicker" = true /\
    fetchTicker ex pair = Return ticker /\
    price = {| price_bid := ticker_bid ticker;
               price_ask := ticker_ask ticker;
               price_last := ticker_last ticker |}.
Proof.
  unfold fetchPrice. split.
  - destruct exchange as [ex|]; [|discriminate].
    destruct (has ex) as [caps|] eqn:H; [|discriminate].
    destruct (caps "fetchTicker") eqn:C; [|discriminate]. simpl.
    destruct (fetchTicker ex pair) as [ticker|e] eqn:T; [|discriminate]. simpl.
    intros E. inversion E. exists ex, caps, ticker. repeat split; assumption.
  - intros (ex & caps & ticker & -> & H & C & T & ->).
    rewrite H, C. simpl. rewrite T. reflexivity.
Qed.

(** Where a valid quote comes from. *)
Lemma quoteOf_origin (exchanges : list (string * Exchange)) (pair id : string)
      (q : Quote) :
  In q (quoteOf exchanges pair id) ->
  exchange q = id /\
  exists ex caps ticker,
    get exchanges id = Some ex /\ has ex = Some caps /\
    caps "fetchTicker" = true /\ fetchTicker ex pair = Return ticker /\
    ticker_bid ticker = Some (bid q) /\ ticker_ask ticker = Some (ask q).
Proof.
  unfold quoteOf.
  destruct (fetchPrice (get exchanges id) pair) as [[price|]|] eqn:F;
    try contradiction.
  apply fetchPrice_price in F.
  destruct F as (ex & caps & ticker & G & H & C & T & ->). simpl.
  destruct (ticker_bid ticker) as [b|] eqn:B; [|contradiction].
  destruct (ticker_ask ticker) as [a|] eqn:K; [|contradiction].
  destruct (ToBoolean b && ToBoolean a); [|contradiction].
  intros [<-|[]]. simpl. split; [reflexivity|].
  exists ex, caps, ticker. repeat split; assumption.
Qed.

Lemma quoteOf_length (exchanges : list (string * Exchange)) (pair id : string) :
  (List.length (quoteOf exchanges pair id) <= 1)%nat.
Proof.
  unfold quoteOf.
  destruct (fetchPrice _ pair) as [[[[b|] [a|] l]|]|]; simpl; try lia.
  destruct (ToBoolean b && ToBoolean a); simpl; lia.
Qed.

Lemma validQuotes_length (exchanges : list (string * Exchange)) (pair : string) :
  (List.length (validQuotes exchanges pair) <= List.length exchanges)%nat.
Proof.
  unfold validQuotes, keys. rewrite <- (length_map fst exchanges).
  induction (map fst exchanges) as [|id ids IH]; simpl; [lia|].
  rewrite length_app. pose proof (quoteOf_length exchanges pair id). lia.
Qed.

Lemma validQuotes_origin (exchanges : list (string * Exchange)) (pair : string)
      (q : Quote) :
  In q (validQuotes exchanges pair) ->
  In (exchange q) (keys exchanges) /\
  exists ex caps ticker,
    get exchanges (exchange q) = Some ex /\ has ex = Some caps /\
    caps "fetchTicker" = true /\ fetchTicker ex pair = Return ticker /\
    ticker_bid ticker = Some (bid q) /\ ticker_ask ticker = Some (ask q).
Proof.
  unfold validQuotes. intros H. apply in_flat_map in H.
  destruct H as (id & Hid & Hq). apply quoteOf_origin in Hq.
  destruct Hq as [E Hq]. subst id. auto.
Qed.

(** What a snapshot is made of. *)
Lemma scanPair_snapshot_inv (exchanges : list (string * Exchange)) (pair : string)
      (snap : Snapshot.t) :
  scanPair exchanges pair = Return (Some snap) ->
  let valid := validQuotes exchanges pair in
  (2 <= List.length valid)%nat /\
  snap = {| Snapshot.pair := pair;
            Snapshot.bestBuy := hd_error (sort byAsk valid);
            Snapshot.bestSell := hd_error (sort byBidDesc (sort byAsk valid));
            Snapshot.all := sort byBidDesc (sort byAsk valid) |}.
Proof.
  rewrite scanPair_unfold. cbv zeta.
  destruct (Nat.ltb_spec (List.length (validQuotes exchanges pair)) 2);
    [discriminate|].
  intros E. inversion E. auto.
Qed.

Lemma all_perm (exchanges : list (string * Exchange)) (pair : string) :
  Permutation (sort byBidDesc (sort byAsk (validQuotes exchanges pair)))
              (validQuotes exchanges pair).
Proof.
  etransitivity; apply sort_perm.
Qed.

Lemma ask_eqb (x y : Quote) :
  validQuote x -> validQuote y ->
  askKey x = askKey y -> (ask x =? ask y)%float = true.
Proof.
  intros Vx Vy.
  destruct (validQuote_not_nan _ Vx) as [_ Nx], (validQuote_not_nan _ Vy) as [_ Ny].
  rewrite (eqb_key _ _ Nx Ny). unfold askKey. intros H. now apply Z.eqb_eq.
Qed.

Lemma get_perm {A : Type} (o o' : list (string * A)) :
  Permutation o o' -> NoDup (keys o) -> forall k, get o k = get o' k.
Proof.
  induction 1 as [|[k0 v0] l l' P IH|[k1 v1] [k2 v2] l|l l' l'' P1 IH1 P2 IH2];
    intros Hnd k; simpl in *.
  - reflexivity.
  - inversion Hnd; subst. rewrite IH by assumption. reflexivity.
  - inversion Hnd as [|? ? Hn1 Hnd']; subst.
    destruct (String.eqb_spec k2 k) as [->|], (String.eqb_spec k1 k) as [->|];
      try reflexivity.
    exfalso. apply Hn1. now left.
  - rewrite IH1 by assumption. apply IH2.
    eapply Permutation_NoDup; [|exact Hnd]. now apply Permutation_map.
Qed.

Lemma validQuotes_perm (o o' : list (string * Exchange)) (pair : string) :
  Permutation o o' -> NoDup (keys o) ->
  Permutation (validQuotes o pair) (validQuotes o' pair).
Proof.
  intros P Hnd. unfold validQuotes.
  rewrite (flat_map_ext (quoteOf o pair) (quoteOf o' pair)).
  - apply Permutation_flat_map. now apply Permutation_map.
  - intros id. unfold quoteOf. now rewrite (get_perm o o' P Hnd).
Qed.

(** Conversion of a sortedness statement on keys to one on the bids. *)
Lemma sorted_by_bid (l : list Quote) :
  Forall validQuote l ->
  StronglySorted (le_key bidKeyDesc) l ->
  StronglySorted (fun x y => (bid y <=? bid x)%float = true) l.
Proof.
  intros V S. induction S as [|x l S IH Hx]; constructor.
  - apply IH. now inversion V.
  - inversion V as [|? ? Vx Vl]; subst.
    rewrite Forall_forall in *. intros y Hy.
    apply bid_leb; auto. now apply Hx.
Qed.

(** The heads of the two sorted arrays carry the least key. *)
Lemma best_keys (valid : list Quote) (buy sell : Quote) (tb ts : list Quote) :
  Forall validQuote valid ->
  sort byAsk valid = buy :: tb ->
  sort byBidDesc (sort byAsk valid) = sell :: ts ->
  In buy valid /\ In sell valid /\
  (forall q, In q valid -> askKey buy <= askKey q) /\
  (forall q, In q valid -> bidKeyDesc sell <= bidKeyDesc q).
Proof.
  intros V Eb Es.
  pose proof (sort_perm byAsk valid) as P1.
  pose proof (sort_dom byAsk validQuote valid V) as V1.
  destruct (sort_head byAsk askKey validQuote byAsk_after valid buy tb V Eb)
    as (l1 & l2 & E1 & Hl1 & Hl2).
  destruct (sort_head byBidDesc bidKeyDesc validQuote byBidDesc_after _ sell ts V1 Es)
    as (s1 & s2 & E2 & Hs1 & Hs2).
  rewrite Forall_forall in Hl1, Hl2, Hs1, Hs2.
  split; [rewrite E1; apply in_or_app; right; now left|].
  split.
  { apply (Permutation_in _ P1). rewrite E2. apply in_or_app. right. now left. }
  split; intros q Hq.
  - rewrite E1 in Hq. apply in_app_or in Hq. destruct Hq as [Hq|[<-|Hq]].
    + specialize (Hl1 q Hq). lia.
    + lia.
    + now apply Hl2.
  - apply (Permutation_in _ (Permutation_sym P1)) in Hq.
    rewrite E2 in Hq. apply in_app_or in Hq. destruct Hq as [Hq|[<-|Hq]].
    + specialize (Hs1 q Hq). lia.
    + lia.
    + now apply Hs2.
Qed.

End SnapshotFacts.

Section SnapshotProperties.
Import JSArray JSArrayFacts AggregatorFacts SnapshotFacts.
Variable exchanges : list (string * Exchange).
Variable pair : string.

(** X4. Every quote of a snapshot comes from a configured adapter: its
    exchange id is a key of [exchanges], that adapter has the
    [fetchTicker] capability, its ticker call returned, and the quote
    carries the ticker's bid and ask, both truthy (neither missing, zero
    nor NaN).  A snapshot holds at least two quotes and at most one per
    exchange. *)
Theorem snapshot_quotes_origin (snap : Snapshot.t) :
  scanPair exchanges pair = Return (Some snap) ->
  Snapshot.pair snap = pair /\
  (2 <= List.length (Snapshot.all snap) <= List.length exchanges)%nat /\
  forall q, In q (Snapshot.all snap) ->
    In (exchange q) (keys exchanges) /\
    JSNumber.ToBoolean (bid q) = true /\ JSNumber.ToBoolean (ask q) = true /\
    exists ex caps ticker,
      get exchanges (exchange q) = Some ex /\ has ex = Some caps /\
      caps "fetchTicker" = true /\ fetchTicker ex pair = Return ticker /\
      ticker_bid ticker = Some (bid q) /\ ticker_ask ticker = Some (ask q).
Proof.
  intros Hscan. apply scanPair_snapshot_inv in Hscan. cbv zeta in Hscan.
  destruct Hscan as [Hlen ->]. simpl.
  pose proof (all_perm exchanges pair) as P.
  split; [reflexivity|]. split.
  - rewrite (Permutation_length P).
    pose proof (validQuotes_length exchanges pair). lia.
  - intros q Hq. apply (Permutation_in _ P) in Hq.
    pose proof (validQuotes_valid exchanges pair) as V.
    rewrite Forall_forall in V. pose proof (V q Hq) as Vq.
    unfold validQuote in Vq. destruct Vq as [Vb Va].
    destruct (validQuotes_origin exchanges pair q Hq) as [Hk Ho].
    auto.
Qed.

(** X5. The [all] array of a snapshot is the valid quotes re-ordered by
    descending bid, and [bestSell] is its first element.  Both [bestBuy]
    and [bestSell] are always defined and belong to [all], so the
    [!buy || !sell] guard of [mainLoop] never skips a snapshot. *)
Theorem snapshot_all_sorted (snap : Snapshot.t) :
  scanPair exchanges pair = Return (Some snap) ->
  Permutation (Snapshot.all snap) (validQuotes exchanges pair) /\
  StronglySorted (fun x y => (bid y <=? bid x)%float = true) (Snapshot.all snap) /\
  Snapshot.bestSell snap = hd_error (Snapshot.all snap) /\
  exists buy sell,
    Snapshot.bestBuy snap = Some buy /\ Snapshot.bestSell snap = Some sell /\
    In buy (Snapshot.all snap) /\ In sell (Snapshot.all snap).
Proof.
  intros Hscan. apply scanPair_snapshot_inv in Hscan. cbv zeta in Hscan.
  destruct Hscan as [Hlen ->]. simpl.
  pose proof (all_perm exchanges pair) as P.
  pose proof (validQuotes_valid exchanges pair) as V.
  pose proof (sort_dom byAsk validQuote _ V) as V1.
  split; [exact P|]. split.
  { apply sorted_by_bid; [now apply sort_dom|].
    now apply (sort_sorted byBidDesc bidKeyDesc validQuote byBidDesc_after). }
  split; [reflexivity|].
  destruct (scanPair_snapshot exchanges pair Hlen)
    as (buy & tb & sell & ts & Eb & Es & _).
  destruct (best_keys _ buy sell tb ts V Eb Es) as (Ib & Is & _).
  exists buy, sell. rewrite Es in P |- *. rewrite Eb. simpl.
  repeat split; [|now left].
  apply (Permutation_in _ (Permutation_sym P)). exact Ib.
Qed.
End SnapshotProperties.

(** X6. The best prices do not depend on the order of the adapters: for
    an [exchanges] object (distinct keys) listed in another order
    [scanPair] returns [null] in the same cases and otherwise selects a
    [bestBuy] with the same ask and a [bestSell] with the same bid. *)
Theorem best_prices_independent_of_adapter_order
        (exchanges exchanges' : list (string * Exchange)) (pair : string) :
  NoDup (keys exchanges) ->
  Permutation exchanges exchanges' ->
  (scanPair exchanges pair = Return None <->
   scanPair exchanges' pair = Return None) /\
  (forall snap, scanPair exchanges pair = Return (Some snap) ->
     exists snap' buy buy' sell sell',
       scanPair exchanges' pair = Return (Some snap') /\
       Snapshot.bestBuy snap = Some buy /\ Snapshot.bestBuy snap' = Some buy' /\
       Snapshot.bestSell snap = Some sell /\ Snapshot.bestSell snap' = Some sell' /\
       (ask buy =? ask buy')%float = true /\
       (bid sell =? bid sell')%float = true).
Proof.
  intros Hnd P.
  pose proof (SnapshotFacts.validQuotes_perm _ _ pair P Hnd) as PV.
  pose proof (Permutation_length PV) as EL.
  pose proof (AggregatorFacts.validQuotes_valid exchanges pair) as V.
  pose proof (AggregatorFacts.validQuotes_valid exchanges' pair) as V'.
  split.
  - rewrite !AggregatorFacts.scanPair_unfold. cbv zeta. rewrite EL.
    destruct (List.length (validQuotes exchanges' pair) <? 2)%nat;
      split; intros H; (reflexivity || discriminate).
  - intros snap Hscan.
    apply SnapshotFacts.scanPair_snapshot_inv in Hscan. cbv zeta in Hscan.
    destruct Hscan as [Hlen ->].
    destruct (AggregatorFacts.scanPair_snapshot exchanges pair Hlen)
      as (buy & tb & sell & ts & Eb & Es & _).
    assert (Hlen' : (2 <= List.length (validQuotes exchanges' pair))%nat) by lia.
    destruct (AggregatorFacts.scanPair_snapshot exchanges' pair Hlen')
      as (buy' & tb' & sell' & ts' & Eb' & Es' & Hscan').
    destruct (SnapshotFacts.best_keys _ buy sell tb ts V Eb Es)
      as (Ib & Is & Hb & Hs).
    destruct (SnapshotFacts.best_keys _ buy' sell' tb' ts' V' Eb' Es')
      as (Ib' & Is' & Hb' & Hs').
    rewrite Forall_forall in V, V'.
    eexists _, buy, buy', sell, sell'. split; [exact Hscan'|].
    cbn [Snapshot.bestBuy Snapshot.bestSell]. rewrite Es, Eb. simpl. repeat split.
    + apply SnapshotFacts.ask_eqb; auto.
      apply Z.le_antisymm.
      * apply Hb. apply (Permutation_in _ (Permutation_sym PV)). exact Ib'.
      * apply Hb'. apply (Permutation_in _ PV). exact Ib.
    + apply AggregatorFacts.bid_eqb; auto.
      apply Z.le_antisymm.
      * apply Hs. apply (Permutation_in _ (Permutation_sym PV)). exact Is'.
      * apply Hs'. apply (Permutation_in _ PV). exact Is.
Qed.

Lemma snapshot_quotes_origin_witness :
  exists snap,
    scanPair scenarioExchanges "BTC/USDT" = Return (Some snap) /\
    (2 <= List.length (Snapshot.all snap) <= List.length scenarioExchanges)%nat.
Proof.
  eexists. split; [reflexivity|].
  apply (snapshot_quotes_origin scenarioExchanges "BTC/USDT"). reflexivity.
Defined.

Lemma snapshot_all_sorted_witness :
  exists snap,
    scanPair scenarioExchanges "BTC/USDT" = Return (Some snap) /\
    Snapshot.bestSell snap = hd_error (Snapshot.all snap).
Proof.
  eexists. split; [reflexivity|].
  apply (snapshot_all_sorted scenarioExchanges "BTC/USDT"). reflexivity.
Defined.

Lemma best_prices_independent_of_adapter_order_witness :
  scanPair tiedExchanges "BTC/USDT" = Return None <->
  scanPair (rev tiedExchanges) "BTC/USDT" = Return None.
Proof.
  apply (best_prices_independent_of_adapter_order tiedExchanges (rev tiedExchanges)).
  - vm_compute. repeat constructor; simpl; intuition discriminate.
  - apply Permutation_rev.
Defined.

(* ================================================================= *)
(** ** More on the execution orchestrator *)

Module ExecutionCases.

Section Early.
Variable builtins : Builtins.
Variable exchanges : list (string * Exchange).
Variable withdrawAddresses : list (string * list (string * string)).
Variable opportunity : Opportunity.t.

Let pair := Opportunity.pair opportunity.
Let bestBuy := Opportunity.bestBuy opportunity.
Let bestSell := Opportunity.bestSell opportunity.
Let baseAmount := baseAmountOf opportunity.
Let run := executeArbitrage builtins exchanges withdrawAddresses opportunity.

Lemma rejected :
  (spreadOf bestBuy bestSell <? MIN_ARBITRAGE_SPREAD)%float = true ->
  run = ([], Return (failure "spread too low")).
Proof.
  intros Hs. unfold run, executeArbitrage.
  unfold spreadOf, bestBuy, bestSell in Hs. now rewrite Hs.
Qed.

Lemma cannot_create :
  (spreadOf bestBuy bestSell <? MIN_ARBITRAGE_SPREAD)%float = false ->
  (get exchanges (exchange bestBuy) = None \/
   exists buyEx, get exchanges (exchange bestBuy) = Some buyEx /\
     (has buyEx = None \/
      exists caps, has buyEx = Some caps /\ caps "createMarketOrder" = false)) ->
  run = ([], Return (failure "buy exchange cannot create orders via API")).
Proof.
  intros Hs Hcap. unfold run, executeArbitrage.
  unfold spreadOf, bestBuy, bestSell in Hs. rewrite Hs. unfold bestBuy in Hcap.
  destruct Hcap as [Hn|(ex & Hg & [Hn|(caps & Hh & Hc)])].
  - now rewrite Hn.
  - now rewrite Hg, Hn.
  - now rewrite Hg, Hh, Hc.
Qed.

Lemma order_failed (buyEx : Exchange) (caps : string -> bool) (e : string) :
  (spreadOf bestBuy bestSell <? MIN_ARBITRAGE_SPREAD)%float = false ->
  get exchanges (exchange bestBuy) = Some buyEx ->
  has buyEx = Some caps ->
  caps "createMarketOrder" = true ->
  createMarketOrder buyEx pair "buy" baseAmount = Throw e ->
  run = ([CallCreateMarketOrder (exchange bestBuy) pair "buy" baseAmount],
         Return {| ok := false; reason := Some "order failed";
                   err := Some e; note := None |}).
Proof.
  intros Hs Hg Hh Hc Hb. unfold run, executeArbitrage.
  unfold spreadOf, bestBuy, bestSell in Hs. rewrite Hs.
  unfold bestBuy in Hg. rewrite Hg, Hh, Hc.
  unfold pair, baseAmount, baseAmountOf in Hb. cbv zeta. simpl negb. cbv iota.
  unfold call. rewrite Hb. reflexivity.
Qed.
End Early.

(** Every path through [executeArbitrage], each with the whole run in
    place of the call. *)
Ltac exec_cases builtins exchanges book opp :=
  destruct (spreadOf (Opportunity.bestBuy opp) (Opportunity.bestSell opp)
            <? MIN_ARBITRAGE_SPREAD)%float eqn:Hspread;
  [ rewrite (rejected builtins exchanges book opp Hspread)
  | destruct (get exchanges (exchange (Opportunity.bestBuy opp)))
      as [buyEx|] eqn:Hfound;
    [ destruct (has buyEx) as [caps|] eqn:Hhas;
      [ destruct (caps "createMarketOrder") eqn:Hcan;
        [ destruct (createMarketOrder buyEx (Opportunity.pair opp) "buy"
                      (baseAmountOf opp)) as [order|e] eqn:Hbuy;
          [ rewrite (ExecutionFacts.after_buy builtins exchanges book opp buyEx caps
                       order Hspread Hfound Hhas Hcan Hbuy);
            destruct (addressEntry builtins book
                        (exchange (Opportunity.bestSell opp))
                        (split_slash_0 (Opportunity.pair opp)))
              as [address|e] eqn:Haddr;
            [ destruct (truthy address) eqn:Htruthy;
              [ destruct (caps "withdraw") eqn:Hwd;
                [ destruct (withdraw buyEx (split_slash_0 (Opportunity.pair opp))
                              (baseAmountOf opp) address) as [tx|e] eqn:Hw
                | ]
              | ]
            | ]
          | rewrite (order_failed builtins exchanges book opp buyEx caps e
                       Hspread Hfound Hhas Hcan Hbuy) ]
        | rewrite (cannot_create builtins exchanges book opp Hspread
                     (or_intror (ex_intro _ buyEx (conj Hfound
                        (or_intror (ex_intro _ caps (conj Hhas Hcan))))))) ]
      | rewrite (cannot_create builtins exchanges book opp Hspread
                   (or_intror (ex_intro _ buyEx (conj Hfound (or_introl Hhas))))) ]
    | rewrite (cannot_create builtins exchanges book opp Hspread
                 (or_introl Hfound)) ] ].

End ExecutionCases.

Section ExecutionProperties.
Import ExecutionCases.
Variable builtins : Builtins.
Variable exchanges : list (string * Exchange).
Variable withdrawAddresses : list (string * list (string * string)).
Variable opportunity : Opportunity.t.

Let pair := Opportunity.pair opportunity.
Let bestBuy := Opportunity.bestBuy opportunity.
Let bestSell := Opportunity.bestSell opportunity.
Let asset := split_slash_0 pair.
Let baseAmount := baseAmountOf opportunity.
Let run := executeArbitrage builtins exchanges withdrawAddresses opportunity.
Let buyCall := CallCreateMarketOrder (exchange bestBuy) pair "buy" baseAmount.
Let withdrawCall (address : Value) :=
  CallWithdraw (exchange bestBuy) asset baseAmount address.

(** X7. Past revalidation, when the buy exchange is not configured, has
    no capability table or lacks [createMarketOrder], the result is
    [{ok: false, reason: "buy exchange cannot create orders via API"}]
    and nothing at all has been done: no adapter call, no log line. *)
Theorem executeArbitrage_cannot_create_orders :
  (spreadOf bestBuy bestSell <? MIN_ARBITRAGE_SPREAD)%float = false ->
  (get exchanges (exchange bestBuy) = None \/
   exists buyEx, get exchanges (exchange bestBuy) = Some buyEx /\
     (has buyEx = None \/
      exists caps, has buyEx = Some caps /\ caps "createMarketOrder" = false)) ->
  run = ([], Return (failure "buy exchange cannot create orders via API")).
Proof.
  intros Hs Hcap. unfold run, executeArbitrage.
  unfold spreadOf, bestBuy, bestSell in Hs. rewrite Hs. unfold bestBuy in Hcap.
  destruct Hcap as [Hn|(ex & Hg & [Hn|(caps & Hh & Hc)])].
  - rewrite Hn. reflexivity.
  - rewrite Hg, Hn. reflexivity.
  - rewrite Hg, Hh, Hc. reflexivity.
Qed.

(** X8. When the market buy throws, the result is
    [{ok: false, reason: "order failed", err}] with the thrown message;
    the buy call is the only effect: no log line, no withdrawal. *)
Theorem executeArbitrage_order_failed (buyEx : Exchange) (caps : string -> bool)
        (e : string) :
  (spreadOf bestBuy bestSell <? MIN_ARBITRAGE_SPREAD)%float = false ->
  get exchanges (exchange bestBuy) = Some buyEx ->
  has buyEx = Some caps ->
  caps "createMarketOrder" = true ->
  createMarketOrder buyEx pair "buy" baseAmount = Throw e ->
  run = ([buyCall],
         Return {| ok := false; reason := Some "order failed";
                   err := Some e; note := None |}).
Proof.
  intros Hs Hg Hh Hc Hb. unfold run, executeArbitrage.
  unfold spreadOf, bestBuy, bestSell in Hs. rewrite Hs.
  unfold bestBuy in Hg. rewrite Hg, Hh, Hc.
  unfold pair, baseAmount, baseAmountOf in Hb. cbv zeta. simpl negb. cbv iota.
  unfold call. rewrite Hb. reflexivity.
Qed.

(** X9. Whatever the payload, the adapters and the built-in objects do,
    the adapter calls of one execution are none, the buy alone, or the buy
    followed by one withdrawal of the bought amount of the base asset to
    the truthy value that the lookup
    [withdrawAddresses[bestSell.exchange][asset]] gave, own or inherited:
    never a second order, never a sell, never a withdrawal without the
    buy. *)
Theorem executeArbitrage_adapter_calls :
  adapterCalls (M.trace run) = [] \/
  adapterCalls (M.trace run) = [buyCall] \/
  exists address,
    truthy address = true /\
    addressEntry builtins withdrawAddresses (exchange bestSell) asset = Return address /\
    adapterCalls (M.trace run) = [buyCall; withdrawCall address].
Proof.
  unfold run, buyCall, withdrawCall, asset, baseAmount, pair, bestBuy, bestSell.
  exec_cases builtins exchanges withdrawAddresses opportunity; simpl; auto;
    right; right; exists address; auto.
Qed.

(** X10. The only [ok: true] result of [executeArbitrage] is the one with
    the awaiting-deposit note, and it is returned exactly when
    revalidation passed, the buy exchange could and did place the order,
    the address lookup gave a truthy value (own or inherited), and the
    adapter could and did accept the withdrawal request to that value. *)
Theorem executeArbitrage_ok_iff :
  (forall result,
     M.outcome run = Return result -> ok result = true -> result = awaitingDeposit) /\
  (M.outcome run = Return awaitingDeposit <->
   (spreadOf bestBuy bestSell <? MIN_ARBITRAGE_SPREAD)%float = false /\
   exists buyEx caps order address tx,
     get exchanges (exchange bestBuy) = Some buyEx /\
     has buyEx = Some caps /\
     caps "createMarketOrder" = true /\
     createMarketOrder buyEx pair "buy" baseAmount = Return order /\
     addressEntry builtins withdrawAddresses (exchange bestSell) asset = Return address /\
     truthy address = true /\
     caps "withdraw" = true /\
     withdraw buyEx asset baseAmount address = Return tx).
Proof.
  split; [|split].
  - unfold run.
    exec_cases builtins exchanges withdrawAddresses opportunity;
      intros result Hout Hok; inversion Hout; subst result;
      (reflexivity || discriminate).
  - unfold run, asset, baseAmount, pair, bestBuy, bestSell.
    exec_cases builtins exchanges withdrawAddresses opportunity;
      intros Hout; try discriminate.
    split; [reflexivity|].
    exists buyEx, caps, order, address, tx. repeat split; assumption.
  - intros (Hs & buyEx & caps & order & address & tx
            & Hg & Hh & Hc & Hb & Ha & Ht & Hwd & Hw).
    unfold run.
    rewrite (ExecutionFacts.after_buy builtins exchanges withdrawAddresses
               opportunity buyEx caps order Hs Hg Hh Hc Hb).
    unfold asset, pair, bestSell in Ha. rewrite Ha, Ht, Hwd.
    unfold asset, pair, baseAmount in Hw. rewrite Hw. reflexivity.
Qed.
End ExecutionProperties.

Section ExecutionEdgeCases.
Variable builtins : Builtins.
Variable exchanges : list (string * Exchange).
Variable withdrawAddresses : list (string * list (string * string)).
Variable opportunity : Opportunity.t.

Let pair := Opportunity.pair opportunity.
Let bestBuy := Opportunity.bestBuy opportunity.
Let bestSell := Opportunity.bestSell opportunity.
Let asset := split_slash_0 pair.
Let baseAmount := baseAmountOf opportunity.
Let run := executeArbitrage builtins exchanges withdrawAddresses opportunity.
Let buyCall := CallCreateMarketOrder (exchange bestBuy) pair "buy" baseAmount.

(** X11. Revalidation rejects exactly when [spread < MIN_ARBITRAGE_SPREAD]
    is true, whatever the adapters are.  It is not true for a [NaN] spread
    (for instance when ask and bid are both zero): such a payload is never
    rejected as "spread too low" and, when the buy exchange can place
    orders, the buy order is placed. *)
Theorem executeArbitrage_nan_spread :
  (M.outcome run = Return (failure "spread too low") <->
   (spreadOf bestBuy bestSell <? MIN_ARBITRAGE_SPREAD)%float = true) /\
  (PrimFloat.is_nan (spreadOf bestBuy bestSell) = true ->
   M.outcome run <> Return (failure "spread too low") /\
   forall buyEx caps,
     get exchanges (exchange bestBuy) = Some buyEx ->
     has buyEx = Some caps ->
     caps "createMarketOrder" = true ->
     exists rest, M.trace run = buyCall :: rest).
Proof.
  split; [apply ExecutionFacts.spread_too_low_iff|].
  intros Hnan.
  apply (ExecutionFacts.ltb_nan_l _ MIN_ARBITRAGE_SPREAD) in Hnan. split.
  - now apply ExecutionFacts.past_revalidation.
  - intros buyEx caps Hg Hh Hc.
    now apply (ExecutionFacts.buy_attempted builtins exchanges withdrawAddresses
                 opportunity buyEx caps).
Qed.

(** X12. A destination address that is the empty string, as when the
    configured entry is empty, counts as missing: after a successful buy
    the result is
    [{ok: false, reason: "no destination address"}] and no withdrawal is
    requested. *)
Theorem executeArbitrage_empty_address (buyEx : Exchange) (caps : string -> bool)
        (order : Order) :
  (spreadOf bestBuy bestSell <? MIN_ARBITRAGE_SPREAD)%float = false ->
  get exchanges (exchange bestBuy) = Some buyEx ->
  has buyEx = Some caps ->
  caps "createMarketOrder" = true ->
  createMarketOrder buyEx pair "buy" baseAmount = Return order ->
  addressEntry builtins withdrawAddresses (exchange bestSell) asset = Return (Text "") ->
  M.outcome run = Return (failure "no destination address") /\
  adapterCalls (M.trace run) = [buyCall].
Proof.
  intros Hs Hg Hh Hc Hb Ha.
  now apply (ExecutionFacts.no_destination builtins exchanges withdrawAddresses
               opportunity buyEx caps order Hs Hg Hh Hc Hb (Text "")).
Qed.
End ExecutionEdgeCases.

(** X13. With [withdrawAddresses] as the source ships it (empty), an
    execution whose sell exchange is not the name of a property that
    every object inherits never requests a withdrawal and never returns
    [ok: true]: the only adapter call it can make is the one buy. *)
Theorem executeArbitrage_shipped_address_book (builtins : Builtins)
        (exchanges : list (string * Exchange)) (opportunity : Opportunity.t) :
  inheritedName (exchange (Opportunity.bestSell opportunity)) = false ->
  let run := executeArbitrage builtins exchanges withdrawAddresses_shipped opportunity in
  (forall result, M.outcome run = Return result -> ok result = false) /\
  (adapterCalls (M.trace run) = [] \/
   adapterCalls (M.trace run) =
     [CallCreateMarketOrder (exchange (Opportunity.bestBuy opportunity))
        (Opportunity.pair opportunity) "buy" (baseAmountOf opportunity)]).
Proof.
  intros Hname run. unfold run.
  pose proof (ExecutionFacts.addressEntry_missing builtins withdrawAddresses_shipped
                (exchange (Opportunity.bestSell opportunity))
                (split_slash_0 (Opportunity.pair opportunity)) eq_refl Hname) as Hmiss.
  ExecutionCases.exec_cases builtins exchanges withdrawAddresses_shipped opportunity;
    try solve [inversion Hmiss; subst; simpl in Htruthy; discriminate];
    (split; [intros result Hout; inversion Hout; reflexivity|simpl; auto]).
Qed.

Lemma executeArbitrage_cannot_create_orders_witness :
  executeArbitrage sampleBuiltins [("A", readOnly 100 100.1)] []
                   (opportunityOf "BTC/USDT" quoteA quoteB) =
  ([], Return (failure "buy exchange cannot create orders via API")).
Proof.
  apply (executeArbitrage_cannot_create_orders sampleBuiltins
           [("A", readOnly 100 100.1)] []
           (opportunityOf "BTC/USDT" quoteA quoteB)).
  - reflexivity.
  - right. exists (readOnly 100 100.1). split; [reflexivity|].
    right. eexists. split; reflexivity.
Defined.

Lemma executeArbitrage_order_failed_witness :
  executeArbitrage sampleBuiltins [("A", failing)] []
                   (opportunityOf "BTC/USDT" quoteA quoteB) =
  ([CallCreateMarketOrder "A" "BTC/USDT" "buy"
      (baseAmountOf (opportunityOf "BTC/USDT" quoteA quoteB))],
   Return {| ok := false; reason := Some "order failed";
             err := Some "order rejected"; note := None |}).
Proof.
  apply (executeArbitrage_order_failed sampleBuiltins [("A", failing)] []
           (opportunityOf "BTC/USDT" quoteA quoteB) failing (fun _ => true));
    reflexivity.
Defined.

Lemma executeArbitrage_adapter_calls_witness :
  adapterCalls (M.trace (executeArbitrage sampleBuiltins scenarioExchanges
                           withdrawAddresses_shipped inheritedNameOpportunity)) =
    [CallCreateMarketOrder "A" "name/USDT" "buy"
       (baseAmountOf inheritedNameOpportunity);
     CallWithdraw "A" "name" (baseAmountOf inheritedNameOpportunity) "Object"].
Proof.
  destruct (executeArbitrage_adapter_calls sampleBuiltins scenarioExchanges
              withdrawAddresses_shipped inheritedNameOpportunity)
    as [H|[H|(address & _ & _ & H)]]; try discriminate H.
  reflexivity.
Defined.

Lemma executeArbitrage_ok_iff_witness :
  M.outcome (executeArbitrage sampleBuiltins scenarioExchanges addressBook
               (opportunityOf "BTC/USDT" quoteA quoteB)) = Return awaitingDeposit.
Proof.
  destruct (executeArbitrage_ok_iff sampleBuiltins scenarioExchanges addressBook
              (opportunityOf "BTC/USDT" quoteA quoteB)) as (_ & Hok).
  apply Hok.
  split; [reflexivity|].
  exists (quoting 100 100.1), (fun _ => true), {| order_id := None |},
         (Text "bc1-destination"), {| tx_id := None |}.
  repeat split; reflexivity.
Defined.

Lemma executeArbitrage_nan_spread_witness :
  M.outcome (executeArbitrage sampleBuiltins scenarioExchanges []
               zeroPriceOpportunity) <>
    Return (failure "spread too low") /\
  exists rest,
    M.trace (executeArbitrage sampleBuiltins scenarioExchanges []
               zeroPriceOpportunity) =
    CallCreateMarketOrder "A" "BTC/USDT" "buy" infinity :: rest.
Proof.
  destruct (executeArbitrage_nan_spread sampleBuiltins scenarioExchanges []
              zeroPriceOpportunity) as (_ & Hnan).
  destruct (Hnan eq_refl) as (Hout & Hbuy).
  split; [exact Hout|].
  apply (Hbuy (quoting 100 100.1) (fun _ => true)); reflexivity.
Defined.

Lemma executeArbitrage_empty_address_witness :
  M.outcome (executeArbitrage sampleBuiltins scenarioExchanges emptyAddressBook
               (opportunityOf "BTC/USDT" quoteA quoteB)) =
    Return (failure "no destination address") /\
  adapterCalls (M.trace (executeArbitrage sampleBuiltins scenarioExchanges
                           emptyAddressBook
                           (opportunityOf "BTC/USDT" quoteA quoteB))) =
    [CallCreateMarketOrder "A" "BTC/USDT" "buy"
       (baseAmountOf (opportunityOf "BTC/USDT" quoteA quoteB))].
Proof.
  apply (executeArbitrage_empty_address sampleBuiltins scenarioExchanges
           emptyAddressBook
           (opportunityOf "BTC/USDT" quoteA quoteB)
           (quoting 100 100.1) (fun _ => true) {| order_id := None |});
    reflexivity.
Defined.

Lemma executeArbitrage_shipped_address_book_witness :
  (forall result,
     M.outcome (executeArbitrage sampleBuiltins scenarioExchanges
                  withdrawAddresses_shipped
                  (opportunityOf "BTC/USDT" quoteA quoteB)) = Return result ->
     ok result = false) /\
  adapterCalls (M.trace (executeArbitrage sampleBuiltins scenarioExchanges
                           withdrawAddresses_shipped
                           (opportunityOf "BTC/USDT" quoteA quoteB))) =
    [CallCreateMarketOrder "A" "BTC/USDT" "buy"
       (baseAmountOf (opportunityOf "BTC/USDT" quoteA quoteB))].
Proof.
  destruct (executeArbitrage_shipped_address_book sampleBuiltins scenarioExchanges
              (opportunityOf "BTC/USDT" quoteA quoteB) eq_refl) as (Hok & _).
  split; [exact Hok|reflexivity].
Defined.

(* ================================================================= *)
(** ** More on the opportunity detector *)

Module CycleFacts.
Import AggregatorFacts SnapshotFacts DetectorFacts.

(** The events of a pair are nothing, its ticker, or its ticker followed
    by its opportunity. *)
Lemma processPair_events exchanges Date_now (pair : string) :
  (M.trace (processPair exchanges Date_now pair) = [] /\
   (List.length (validQuotes exchanges pair) < 2)%nat) \/
  exists snap buy sell,
    scanPair exchanges pair = Return (Some snap) /\
    (2 <= List.length (validQuotes exchanges pair))%nat /\
    Snapshot.bestBuy snap = Some buy /\ Snapshot.bestSell snap = Some sell /\
    In buy (validQuotes exchanges pair) /\ In sell (validQuotes exchanges pair) /\
    let ticker := EmitTicker pair buy sell (spreadOf buy sell) in
    let found := EmitOpportunity
                   {| Opportunity.timestamp := Date_now pair;
                      Opportunity.pair := pair;
                      Opportunity.bestBuy := buy;
                      Opportunity.bestSell := sell;
                      Opportunity.spread := spreadOf buy sell |} in
    (M.trace (processPair exchanges Date_now pair) = [ticker] /\
     ((MIN_ARBITRAGE_SPREAD <=? spreadOf buy sell)%float = false \/
      exchange buy = exchange sell)) \/
    (M.trace (processPair exchanges Date_now pair) = [ticker; found] /\
     (MIN_ARBITRAGE_SPREAD <=? spreadOf buy sell)%float = true /\
     exchange buy <> exchange sell).
Proof.
  rewrite processPair_trace.
  destruct (Nat.lt_ge_cases (List.length (validQuotes exchanges pair)) 2) as [Hlt|Hge].
  - left. split; [|exact Hlt].
    rewrite scanPair_unfold. cbv zeta.
    destruct (Nat.ltb_spec (List.length (validQuotes exchanges pair)) 2);
      [reflexivity|lia].
  - right.
    destruct (scanPair_snapshot exchanges pair Hge)
      as (buy & tb & sell & ts & Eb & Es & Hscan).
    destruct (best_keys _ buy sell tb ts (validQuotes_valid exchanges pair) Eb Es)
      as (Ib & Is & _).
    rewrite Hscan. eexists _, buy, sell.
    split; [reflexivity|]. split; [exact Hge|].
    split; [reflexivity|]. split; [reflexivity|].
    split; [exact Ib|]. split; [exact Is|]. cbv zeta.
    destruct (MIN_ARBITRAGE_SPREAD <=? spreadOf buy sell)%float;
      [|left; split; [reflexivity|now left]].
    destruct (String.eqb_spec (exchange buy) (exchange sell)) as [E|N]; simpl.
    + left. split; [reflexivity|now right].
    + right. split; [reflexivity|]. split; [reflexivity|exact N].
Qed.

End CycleFacts.

Section CycleProperties.
Import AggregatorFacts SnapshotFacts DetectorFacts CycleFacts.
Variable exchanges : list (string * Exchange).
Variable Date_now : string -> Z.

(** X14. In a cycle every opportunity event comes immediately after the
    ticker event of the same pair, which carries the same two quotes and
    the same spread. *)
Theorem opportunity_follows_its_ticker (o : Opportunity.t) :
  In (EmitOpportunity o) (M.trace (mainLoop_cycle exchanges Date_now)) ->
  exists before after,
    M.trace (mainLoop_cycle exchanges Date_now) =
    before
    ++ EmitTicker (Opportunity.pair o) (Opportunity.bestBuy o)
                  (Opportunity.bestSell o) (Opportunity.spread o)
    :: EmitOpportunity o :: after.
Proof.
  rewrite mainLoop_cycle_trace. intros Hin.
  apply in_flat_map in Hin. destruct Hin as (p & Hp & Hin).
  apply in_split in Hp. destruct Hp as (l1 & l2 & ->).
  rewrite flat_map_app. cbn [flat_map].
  destruct (processPair_events exchanges Date_now p)
    as [[E _]|(snap & buy & sell & _ & _ & _ & _ & _ & _ & [[E _]|[E _]])];
    rewrite E in Hin |- *.
  - contradiction.
  - destruct Hin as [Hin|[]]. discriminate.
  - destruct Hin as [Hin|[Hin|[]]]; [discriminate|].
    inversion Hin; subst o. simpl.
    eexists _, _. reflexivity.
Qed.

(** X15. An emitted opportunity is for a pair of [PAIRS], is stamped with
    the clock, carries as [spread] the value recomputed from its quotes,
    which is at least [MIN_ARBITRAGE_SPREAD], and its [bestBuy] and
    [bestSell] are valid quotes of that pair from two different
    configured exchanges. *)
Theorem opportunity_fields (o : Opportunity.t) :
  In (EmitOpportunity o) (M.trace (mainLoop_cycle exchanges Date_now)) ->
  In (Opportunity.pair o) PAIRS /\
  Opportunity.timestamp o = Date_now (Opportunity.pair o) /\
  Opportunity.spread o = spreadOf (Opportunity.bestBuy o) (Opportunity.bestSell o) /\
  (MIN_ARBITRAGE_SPREAD <=? Opportunity.spread o)%float = true /\
  In (Opportunity.bestBuy o) (validQuotes exchanges (Opportunity.pair o)) /\
  In (Opportunity.bestSell o) (validQuotes exchanges (Opportunity.pair o)) /\
  In (exchange (Opportunity.bestBuy o)) (keys exchanges) /\
  In (exchange (Opportunity.bestSell o)) (keys exchanges) /\
  exchange (Opportunity.bestBuy o) <> exchange (Opportunity.bestSell o).
Proof.
  rewrite mainLoop_cycle_trace. intros Hin.
  apply in_flat_map in Hin. destruct Hin as (p & Hp & Hin).
  destruct (processPair_events exchanges Date_now p)
    as [[E _]|(snap & buy & sell & _ & _ & _ & _ & Ib & Is & [[E _]|[E [Hs Hne]]])];
    rewrite E in Hin.
  - contradiction.
  - destruct Hin as [Hin|[]]. discriminate.
  - destruct Hin as [Hin|[Hin|[]]]; [discriminate|].
    inversion Hin; subst o. simpl.
    repeat split; try assumption; try reflexivity.
    + now apply (validQuotes_origin exchanges p buy).
    + now apply (validQuotes_origin exchanges p sell).
Qed.

(** X16. A detected opportunity always passes the revalidation of
    [executeArbitrage], whatever the adapters and the address book have
    become since: revalidation recomputes the spread from the payload's
    own quotes.  With the [exchanges] object that detected it, the buy
    exchange is a configured adapter. *)
Theorem detected_opportunity_passes_revalidation (o : Opportunity.t) :
  In (EmitOpportunity o) (M.trace (mainLoop_cycle exchanges Date_now)) ->
  (forall builtins exchanges' withdrawAddresses,
     M.outcome (executeArbitrage builtins exchanges' withdrawAddresses o) <>
       Return (failure "spread too low")) /\
  exists buyEx caps,
    get exchanges (exchange (Opportunity.bestBuy o)) = Some buyEx /\
    has buyEx = Some caps /\ caps "fetchTicker" = true.
Proof.
  rewrite mainLoop_cycle_trace. intros Hin.
  apply in_flat_map in Hin. destruct Hin as (p & Hp & Hin).
  destruct (processPair_events exchanges Date_now p)
    as [[E _]|(snap & buy & sell & _ & _ & _ & _ & Ib & Is & [[E _]|[E [Hs Hne]]])];
    rewrite E in Hin.
  - contradiction.
  - destruct Hin as [Hin|[]]. discriminate.
  - destruct Hin as [Hin|[Hin|[]]]; [discriminate|].
    inversion Hin; subst o. simpl. split.
    + intros builtins exchanges' book. apply ExecutionFacts.past_revalidation. simpl.
      now apply JSNumberFacts.leb_true_ltb_false.
    + destruct (validQuotes_origin exchanges p buy Ib)
        as (_ & ex & caps & ticker & G & H & C & _).
      exists ex, caps. auto.
Qed.

(** X17. In a cycle a ticker event is emitted for a pair of [PAIRS]
    exactly when at least two adapters gave a valid quote for it,
    whatever the spread; a pair with fewer valid quotes is skipped
    without any event. *)
Theorem ticker_emitted_iff (pair : string) :
  In pair PAIRS ->
  ((exists buy sell s,
      In (EmitTicker pair buy sell s) (M.trace (mainLoop_cycle exchanges Date_now)))
   <-> (2 <= List.length (validQuotes exchanges pair))%nat) /\
  ((List.length (validQuotes exchanges pair) < 2)%nat ->
   M.trace (processPair exchanges Date_now pair) = []).
Proof.
  intros Hpair. rewrite mainLoop_cycle_trace. split; [split|].
  - intros (buy & sell & sp & Hin).
    apply in_flat_map in Hin. destruct Hin as (p & Hp & Hin).
    destruct (processPair_events exchanges Date_now p)
      as [[E _]|(snap & b & s0 & _ & Hlen & _ & _ & _ & _ & [[E _]|[E _]])];
      rewrite E in Hin.
    + contradiction.
    + destruct Hin as [Hin|[]]. inversion Hin; subst. exact Hlen.
    + destruct Hin as [Hin|[Hin|[]]]; [|discriminate].
      inversion Hin; subst. exact Hlen.
  - intros Hlen.
    destruct (processPair_events exchanges Date_now pair)
      as [[_ Hlt]|(snap & b & s0 & _ & _ & _ & _ & _ & _ & [[E _]|[E _]])];
      [lia| |];
      exists b, s0, (spreadOf b s0); apply in_flat_map; exists pair;
      (split; [exact Hpair|rewrite E; now left]).
  - intros Hlt.
    destruct (processPair_events exchanges Date_now pair)
      as [[E _]|(snap & b & s0 & _ & Hlen & _)]; [exact E|lia].
Qed.
End CycleProperties.

(** X18. The scan loop only observes: over any number of cycles, every
    effect of [mainLoop] is a ticker or an opportunity event; it never
    places an order, never requests a withdrawal and never reaches the
    [console.error] of its [catch]. *)
Theorem mainLoop_only_emits
        (worlds : list (list (string * Exchange) * (string -> Z))) :
  Forall (fun e => match e with
                   | EmitTicker _ _ _ _ | EmitOpportunity _ => True
                   | _ => False
                   end) (mainLoop worlds) /\
  adapterCalls (mainLoop worlds) = [].
Proof.
  assert (H : Forall (fun e => match e with
                               | EmitTicker _ _ _ _ | EmitOpportunity _ => True
                               | _ => False
                               end) (mainLoop worlds)).
  { rewrite DetectorFacts.mainLoop_trace. apply Forall_forall. intros e Hin.
    apply in_flat_map in Hin. destruct Hin as (w & _ & Hin).
    apply in_flat_map in Hin. destruct Hin as (p & _ & Hin).
    rewrite DetectorFacts.processPair_trace in Hin.
    destruct (scanPair (fst w) p) as [[[p' [buy|] [sell|] l]|]|];
      try contradiction.
    destruct Hin as [<-|Hin]; [exact I|].
    destruct (_ && _); [|contradiction].
    destruct Hin as [<-|[]]. exact I. }
  split; [exact H|].
  unfold adapterCalls. induction H as [|e l He _ IH]; [reflexivity|].
  simpl. destruct e; try contradiction; exact IH.
Qed.

Lemma opportunity_follows_its_ticker_witness :
  exists before after,
    M.trace (mainLoop_cycle exampleExchanges (fun _ => 0)) =
    before
    ++ EmitTicker "BTC/USDT" buyAt100 sellAt100_3 (spreadOf buyAt100 sellAt100_3)
    :: EmitOpportunity (opportunityOf "BTC/USDT" buyAt100 sellAt100_3) :: after.
Proof.
  apply (opportunity_follows_its_ticker exampleExchanges (fun _ => 0)
           (opportunityOf "BTC/USDT" buyAt100 sellAt100_3)).
  vm_compute. right. left. reflexivity.
Defined.

Lemma opportunity_fields_witness :
  In (exchange buyAt100) (keys exampleExchanges) /\
  exchange buyAt100 <> exchange sellAt100_3.
Proof.
  destruct (opportunity_fields exampleExchanges (fun _ => 0)
              (opportunityOf "BTC/USDT" buyAt100 sellAt100_3))
    as (_ & _ & _ & _ & _ & _ & H1 & _ & H2).
  - vm_compute. right. left. reflexivity.
  - split; [exact H1|exact H2].
Defined.

Lemma detected_opportunity_passes_revalidation_witness :
  M.outcome (executeArbitrage sampleBuiltins scenarioExchanges addressBook
               (opportunityOf "BTC/USDT" buyAt100 sellAt100_3)) <>
    Return (failure "spread too low").
Proof.
  apply (detected_opportunity_passes_revalidation exampleExchanges (fun _ => 0)
           (opportunityOf "BTC/USDT" buyAt100 sellAt100_3)).
  vm_compute. right. left. reflexivity.
Defined.

Lemma ticker_emitted_iff_witness :
  M.trace (processPair partlyFailingExchanges (fun _ => 0) "BTC/USDT") = [].
Proof.
  apply (ticker_emitted_iff partlyFailingExchanges (fun _ => 0) "BTC/USDT").
  - simpl. left. reflexivity.
  - vm_compute. lia.
Defined.

(* ================================================================= *)
(** ** The base asset, and snapshots of the start-up exchanges *)

(** X19. [pair.split('/')[0]], the asset [executeArbitrage] withdraws, is
    the text of the pair before its first slash: for a pair written
    BASE/QUOTE it is BASE, and a pair without a slash is its own asset.
    The result never contains a slash and is a prefix of the pair. *)
Theorem split_slash_0_base (base quote s : string) :
  (no_slash base = true -> split_slash_0 (base ++ String "/" quote) = base) /\
  (no_slash s = true -> split_slash_0 s = s) /\
  no_slash (split_slash_0 s) = true /\
  (exists rest, s = split_slash_0 s ++ rest)%string.
Proof.
  split; [|split; [|split]].
  - induction base as [|c r IH]; simpl; intros H.
    + reflexivity.
    + apply andb_true_iff in H. destruct H as [Hc Hr].
      apply negb_true_iff in Hc. rewrite Hc. f_equal. now apply IH.
  - induction s as [|c r IH]; simpl; intros H; [reflexivity|].
    apply andb_true_iff in H. destruct H as [Hc Hr].
    apply negb_true_iff in Hc. rewrite Hc. f_equal. now apply IH.
  - induction s as [|c r IH]; simpl; [reflexivity|].
    destruct (Ascii.eqb c "/") eqn:E; simpl; [reflexivity|].
    now rewrite E, IH.
  - induction s as [|c r [rest IH]]; simpl.
    + now exists "".
    + destruct (Ascii.eqb c "/"); simpl.
      * now exists (String c r).
      * exists rest. now rewrite <- IH.
Qed.

Lemma split_slash_0_base_witness :
  split_slash_0 ("BTC" ++ String "/" "USDT") = "BTC".
Proof.
  apply (proj1 (split_slash_0_base "BTC" "USDT" "")). reflexivity.
Defined.

Module DistinctFacts.
Import AggregatorFacts SnapshotFacts.

Lemma NoDup_map_injective {A B : Type} (f : A -> B) (l : list A) :
  NoDup (map f l) -> forall x y, In x l -> In y l -> f x = f y -> x = y.
Proof.
  induction l as [|a l IH]; simpl; intros Hnd x y Hx Hy E; [contradiction|].
  inversion Hnd as [|? ? Hn Hnd']; subst.
  destruct Hx as [<-|Hx], Hy as [<-|Hy]; auto.
  - exfalso. apply Hn. rewrite E. now apply in_map.
  - exfalso. apply Hn. rewrite <- E. now apply in_map.
Qed.

(** With distinct keys no exchange contributes two quotes. *)
Lemma validQuotes_distinct (exchanges : list (string * Exchange)) (pair : string)
      (ids : list string) :
  NoDup ids ->
  NoDup (map exchange (flat_map (quoteOf exchanges pair) ids)).
Proof.
  induction 1 as [|id ids Hn Hnd IH]; simpl; [constructor|].
  rewrite map_app. apply NoDup_app; [|exact IH|].
  - pose proof (quoteOf_length exchanges pair id) as L.
    destruct (quoteOf exchanges pair id) as [|q [|q' l]]; simpl in *;
      [constructor|repeat constructor; tauto|lia].
  - intros a Ha Hb. apply in_map_iff in Ha, Hb.
    destruct Ha as (q & <- & Hq), Hb as (q' & E & Hq').
    apply quoteOf_origin in Hq. destruct Hq as [Eq _].
    apply in_flat_map in Hq'. destruct Hq' as (id' & Hid' & Hq').
    apply quoteOf_origin in Hq'. destruct Hq' as [Eq' _].
    apply Hn. congruence.
Qed.

End DistinctFacts.

(** X20. An [exchanges] object has distinct keys, so a snapshot never
    lists an exchange twice; in particular [bestBuy] and [bestSell] name
    the same exchange only when they are one and the same quote. *)
Theorem snapshot_one_quote_per_exchange
        (exchanges : list (string * Exchange)) (pair : string) (snap : Snapshot.t) :
  NoDup (keys exchanges) ->
  scanPair exchanges pair = Return (Some snap) ->
  NoDup (map exchange (Snapshot.all snap)) /\
  forall buy sell,
    Snapshot.bestBuy snap = Some buy ->
    Snapshot.bestSell snap = Some sell ->
    exchange buy = exchange sell -> buy = sell.
Proof.
  intros Hnd Hscan.
  apply SnapshotFacts.scanPair_snapshot_inv in Hscan. cbv zeta in Hscan.
  destruct Hscan as [Hlen ->].
  pose proof (SnapshotFacts.all_perm exchanges pair) as P.
  pose proof (DistinctFacts.validQuotes_distinct exchanges pair _ Hnd) as D.
  fold (validQuotes exchanges pair) in D.
  assert (Dall : NoDup (map exchange
                          (JSArray.sort byBidDesc
                             (JSArray.sort byAsk (validQuotes exchanges pair))))).
  { eapply Permutation_NoDup; [|exact D].
    apply Permutation_map. now apply Permutation_sym. }
  split; [exact Dall|].
  cbn [Snapshot.bestBuy Snapshot.bestSell]. intros buy sell Hb Hs E.
  destruct (AggregatorFacts.scanPair_snapshot exchanges pair Hlen)
    as (b & tb & s0 & ts & Eb & Es & _).
  destruct (SnapshotFacts.best_keys _ b s0 tb ts
              (AggregatorFacts.validQuotes_valid exchanges pair) Eb Es)
    as (Ib & Is & _).
  rewrite Es in Hs. rewrite Eb in Hb. simpl in Hb, Hs.
  inversion Hb; inversion Hs; subst b s0.
  apply (DistinctFacts.NoDup_map_injective exchange _ D); assumption.
Qed.

(** X21. On the [exchanges] object built at start-up a snapshot holds at
    most five quotes, and each of them names one of the ids start-up
    attempted. *)
Theorem startup_snapshot_bound (ccxt : Ccxt) (env : string -> option string)
        (pair : string) (snap : Snapshot.t) :
  scanPair (fst (createExchangesFromEnv ccxt env)) pair = Return (Some snap) ->
  (List.length (Snapshot.all snap) <= 5)%nat /\
  forall q, In q (Snapshot.all snap) -> In (exchange q) (attempted ccxt).
Proof.
  intros Hscan.
  apply SnapshotFacts.scanPair_snapshot_inv in Hscan. cbv zeta in Hscan.
  destruct Hscan as [_ ->]. simpl.
  set (ex := fst (createExchangesFromEnv ccxt env)).
  pose proof (SnapshotFacts.all_perm ex pair) as P.
  assert (K : keys ex = filter (constructs ccxt env) (attempted ccxt)).
  { unfold ex. rewrite StartupFacts.createExchangesFromEnv_initAll.
    rewrite StartupFacts.initAll_keys; [reflexivity|apply StartupFacts.attempted_NoDup]. }
  split.
  - rewrite (Permutation_length P).
    eapply Nat.le_trans; [apply SnapshotFacts.validQuotes_length|].
    unfold keys in K. rewrite <- (length_map fst ex), K.
    eapply Nat.le_trans; [apply filter_length_le|].
    unfold attempted. cbv zeta.
    destruct (includes (ccxt_exchanges ccxt) "mexc"),
             (includes (ccxt_exchanges ccxt) "mxc"),
             (includes (ccxt_exchanges ccxt) "okx"),
             (includes (ccxt_exchanges ccxt) "okex"); simpl; lia.
  - intros q Hq. apply (Permutation_in _ P) in Hq.
    apply SnapshotFacts.validQuotes_origin in Hq. destruct Hq as [Hk _].
    rewrite K in Hk. apply filter_In in Hk. tauto.
Qed.

Lemma snapshot_one_quote_per_exchange_witness :
  exists snap,
    scanPair tiedExchanges "BTC/USDT" = Return (Some snap) /\
    NoDup (map exchange (Snapshot.all snap)).
Proof.
  eexists. split; [reflexivity|].
  apply (snapshot_one_quote_per_exchange tiedExchanges "BTC/USDT").
  - vm_compute. repeat constructor; simpl; intuition discriminate.
  - reflexivity.
Defined.

Lemma startup_snapshot_bound_witness :
  exists snap,
    scanPair (fst (createExchangesFromEnv sampleCcxt sampleEnv)) "BTC/USDT" =
      Return (Some snap) /\
    (List.length (Snapshot.all snap) <= 5)%nat.
Proof.
  eexists. split; [reflexivity|].
  apply (startup_snapshot_bound sampleCcxt sampleEnv "BTC/USDT"). reflexivity.
Defined.
